(** * Tabular Q-learning on the office grid world

    A shallow embedding of [content/office_gym.ipynb]: the
    [QLearningAgent] and [RandomAgent] classes and the episode loops
    of the notebook, over IEEE binary64 numbers as numpy stores them.
    The environment module [office_gym.py] is not part of the
    notebook; it appears here as an interface, with one instance
    written from the specification. *)

From Stdlib Require Import ZArith QArith Bool Lia.
From Stdlib Require Import SpecFloat.
From stdpp Require Import base option list.

Local Open Scope Z_scope.

(* ===================================================================== *)
(** * Part I: the embedding                                               *)
(* ===================================================================== *)

(** ** binary64 arithmetic

    A Python [float] and a [numpy.float64] are IEEE 754 binary64
    numbers: precision 53, exponent bound 1024, rounding to nearest
    even.  The operations are those of [SpecFloat]. *)
Module F64.

Definition prec : Z := 53.
Definition emax : Z := 1024.

Definition float64 : Type := spec_float.

Definition add : float64 -> float64 -> float64 := SFadd prec emax.
Definition sub : float64 -> float64 -> float64 := SFsub prec emax.
Definition mul : float64 -> float64 -> float64 := SFmul prec emax.
Definition div : float64 -> float64 -> float64 := SFdiv prec emax.

(** [x < y], [x <= y] and [x == y] of Python: false on NaN. *)
Definition ltb : float64 -> float64 -> bool := SFltb.
Definition leb : float64 -> float64 -> bool := SFleb.
Definition eqb : float64 -> float64 -> bool := SFeqb.

Definition is_nan (x : float64) : bool :=
  match x with S754_nan => true | _ => false end.

(** Finite numbers: neither an infinity nor NaN. *)
Definition is_finite (x : float64) : bool :=
  match x with
  | S754_zero _ | S754_finite _ _ _ => true
  | S754_infinity _ | S754_nan => false
  end.

(** Conversion of a Python [int]; exact below 2^53. *)
Definition of_Z (z : Z) : float64 := binary_normalize prec emax z 0 false.

Definition zero : float64 := S754_zero false.
Definition one : float64 := Eval vm_compute in of_Z 1.
Definition infinity : float64 := S754_infinity false.
Definition nan : float64 := S754_nan.

(** The decimal literal [n/d] of the notebook ([0.99], [0.5], ...):
    the binary64 number nearest to the quotient. *)
Definition lit (n d : Z) : float64 := div (of_Z n) (of_Z d).

(** The rational number that a finite binary64 number stands for. *)
Definition to_Q (x : float64) : option Q :=
  match x with
  | S754_zero _ => Some 0%Q
  | S754_finite s m e =>
      Some (inject_Z (cond_Zopp s (Zpos m)) * Qpower (2 # 1) e)%Q
  | S754_infinity _ | S754_nan => None
  end.

(** The position of a number that is not NaN in the order of the
    extended reals, as a triple compared lexicographically: the
    class (-2 for -inf, -1 for negative, 0 for both zeros, 1 for
    positive, 2 for +inf), then exponent and mantissa, negated for
    negative numbers. *)
Definition rank (x : float64) : Z * Z * Z :=
  match x with
  | S754_nan => (0, 0, 0)
  | S754_zero _ => (0, 0, 0)
  | S754_infinity s => (if s then -2 else 2, 0, 0)
  | S754_finite s m e =>
      if s then (-1, - e, - Zpos m) else (1, e, Zpos m)
  end.

Definition lex_le (a b : Z * Z * Z) : Prop :=
  let '(c1, e1, m1) := a in
  let '(c2, e2, m2) := b in
  c1 < c2 \/ (c1 = c2 /\ (e1 < e2 \/ (e1 = e2 /\ m1 <= m2))).

Definition lex_lt (a b : Z * Z * Z) : Prop :=
  let '(c1, e1, m1) := a in
  let '(c2, e2, m2) := b in
  c1 < c2 \/ (c1 = c2 /\ (e1 < e2 \/ (e1 = e2 /\ m1 < m2))).

End F64.

Abbreviation float64 := F64.float64.

(** ** Python exceptions and the state-and-exception monad

    A method call either returns a value or raises; in both cases it
    leaves the object in some state, which the next call sees. *)
Inductive py_exn : Type :=
| IndexError
| OverflowError
| ValueError
| InvalidAction
| InvalidSeed
| EnvironmentNotInitialized.

Inductive res (A : Type) : Type :=
| Ok (a : A)
| Raise (e : py_exn).
Arguments Ok {A} a.
Arguments Raise {A} e.

Definition res_bind {A B : Type} (r : res A) (k : A -> res B) : res B :=
  match r with
  | Ok a => k a
  | Raise e => Raise e
  end.

Definition is_ok {A : Type} (r : res A) : bool :=
  match r with Ok _ => true | Raise _ => false end.

(** A method of an object with state [S]. *)
Definition M (S A : Type) : Type := S -> res A * S.

Definition ret {S A : Type} (a : A) : M S A := fun s => (Ok a, s).

Definition bind {S A B : Type} (m : M S A) (k : A -> M S B) : M S B :=
  fun s =>
    match m s with
    | (Ok a, s') => k a s'
    | (Raise e, s') => (Raise e, s')
    end.

Definition lift {S A : Type} (r : res A) : M S A := fun s => (r, s).

Definition gets {S A : Type} (f : S -> A) : M S A := fun s => (Ok (f s), s).

Definition modify {S : Type} (f : S -> S) : M S unit := fun s => (Ok tt, f s).

#[global] Instance M_ret {S : Type} : MRet (M S) := fun A => @ret S A.
#[global] Instance M_bind {S : Type} : MBind (M S) := fun A B k m => bind m k.

(** ** numpy arrays

    A one-dimensional array is a list, a two-dimensional array the
    list of its rows. *)
Module Np.

Abbreviation ndarray1 := (list float64).
Abbreviation ndarray2 := (list (list float64)).

(** [t] has [n] rows of [m] entries each. *)
Definition has_shape (t : ndarray2) (n m : nat) : Prop :=
  length t = n /\ Forall (fun row => length row = m) t.

(** The entry of a table at a row and column, counted from the start. *)
Definition cell (t : ndarray2) (r c : nat) : option float64 :=
  match t !! r with
  | Some row => row !! c
  | None => None
  end.

(** [np.zeros((n, m))]; a negative dimension raises [ValueError]. *)
Definition zeros (n : Z) (m : nat) : res ndarray2 :=
  if n <? 0 then Raise ValueError
  else Ok (replicate (Z.to_nat n) (replicate m F64.zero)).

(** [np.arange(n)]: the integers [0, ..., n-1] (empty for [n <= 0]). *)
Definition arange (n : Z) : list Z := Z.of_nat <$> seq 0 (Z.to_nat n).

(** A Python [int] in [[2^63, 2^64)] does not fit the signed 64-bit
    index of numpy: converting it raises [OverflowError]. *)
Definition overflows (i : Z) : bool := (2 ^ 63 <=? i) && (i <? 2 ^ 64).

(** An integer that numpy converts to a signed 64-bit index. *)
Definition fits (i : Z) : bool := (- 2 ^ 63 <=? i) && (i <? 2 ^ 63).

(** Index normalisation along an axis of length [n]: an index in
    [[0, n)] is itself, an index in [[-n, 0)] counts from the end; any
    other raises [OverflowError] when it is in [[2^63, 2^64)] and
    [IndexError] otherwise. *)
Definition norm_index (n : nat) (i : Z) : res nat :=
  if (0 <=? i) && (i <? Z.of_nat n) then Ok (Z.to_nat i)
  else if (- Z.of_nat n <=? i) && (i <? 0) then Ok (Z.to_nat (i + Z.of_nat n))
  else if overflows i then Raise OverflowError
  else Raise IndexError.

(** [t[i]]: a row of the table. *)
Definition get_row (t : ndarray2) (i : Z) : res ndarray1 :=
  res_bind (norm_index (length t) i) (fun i' =>
  match t !! i' with
  | Some row => Ok row
  | None => Raise IndexError
  end).

(** [row[j]]. *)
Definition get1 (row : ndarray1) (j : Z) : res float64 :=
  res_bind (norm_index (length row) j) (fun j' =>
  match row !! j' with
  | Some x => Ok x
  | None => Raise IndexError
  end).

(** The exception of [t[i, j]] when the row index [i] is refused with
    [e]: numpy converts both indices before it checks either against
    its axis, so a row index that fits but is out of bounds gives way
    to the [OverflowError] of the column index. *)
Definition row_error (e : py_exn) (i j : Z) : py_exn :=
  if fits i && overflows j then OverflowError else e.

(** [t[i, j]]. *)
Definition get2 (t : ndarray2) (i j : Z) : res float64 :=
  match get_row t i with
  | Ok row => get1 row j
  | Raise e => Raise (row_error e i j)
  end.

(** [t[i, j] = x]. *)
Definition set2 (t : ndarray2) (i j : Z) (x : float64) : res ndarray2 :=
  match norm_index (length t) i with
  | Ok i' =>
      match t !! i' with
      | Some row =>
          res_bind (norm_index (length row) j) (fun j' =>
          Ok (<[i' := <[j' := x]> row]> t))
      | None => Raise IndexError
      end
  | Raise e => Raise (row_error e i j)
  end.

(** [np.maximum(a, b)]: [a] when [a >= b] or [a] is NaN, else [b];
    a NaN on either side is the result.  Two zeros of opposite sign
    compare equal: this scalar reading keeps the first, a vectorised
    numpy build may keep the other; the two results are equal under
    [==]. *)
Definition maximum (a b : float64) : float64 :=
  if F64.leb b a || F64.is_nan a then a else b.

(** [np.max(row)]: the reduction of the row by [maximum]; raises
    [ValueError] on an empty row. *)
Definition max (row : ndarray1) : res float64 :=
  match row with
  | [] => Raise ValueError
  | x :: xs => Ok (fold_left maximum xs x)
  end.

(** The scan of [np.argmax] over the rest of a row: [mp] is the
    largest entry so far and [best] its index, [i] the index of the
    head of [xs].  An entry replaces [mp] when it is not [<= mp];
    the scan stops at the first NaN. *)
Fixpoint argmax_scan (xs : ndarray1) (i : nat) (mp : float64) (best : nat)
  : nat :=
  match xs with
  | [] => best
  | x :: xs' =>
      if negb (F64.leb x mp) then
        if F64.is_nan x then i else argmax_scan xs' (S i) x i
      else argmax_scan xs' (S i) mp best
  end.

(** [np.argmax(row)]: the index of the first occurrence of the
    maximum; raises [ValueError] on an empty row. *)
Definition argmax (row : ndarray1) : res nat :=
  match row with
  | [] => Raise ValueError
  | x :: xs => Ok (if F64.is_nan x then 0%nat else argmax_scan xs 1 x 0)
  end.

(** A row of numbers: no entry is NaN. *)
Definition no_nan (row : ndarray1) : Prop :=
  Forall (fun x => F64.is_nan x = false) row.

End Np.

(** ** The random generator

    [np.random.default_rng(seed)] returns a [Generator]; the notebook
    draws from it with [uniform(0, 1)] and [choice(actions)].  The
    generator is numpy's, so it is an interface here, with numpy's
    documented ranges as its laws: [uniform(0, 1)] lies in [[0, 1)]
    and the index drawn by [choice] over [n > 0] entries is below
    [n].  Each draw returns the advanced generator. *)
Class Generator (G : Type) : Type := {
  default_rng : Z -> G;
  rng_uniform : G -> float64 * G;
  rng_integers : nat -> G -> nat * G;
  rng_uniform_range : forall g,
    F64.leb F64.zero (rng_uniform g).1 = true /\
    F64.ltb (rng_uniform g).1 F64.one = true;
  rng_integers_range : forall n g,
    (0 < n)%nat -> ((rng_integers n g).1 < n)%nat
}.

(** [rng.choice(a)]: an entry of [a] at a drawn index; raises
    [ValueError] on an empty array, before any draw. *)
Definition rng_choice `{Generator G} (a : list Z) : M G Z :=
  fun g =>
    match a with
    | [] => (Raise ValueError, g)
    | _ :: _ =>
        let '(i, g') := rng_integers (length a) g in
        match a !! i with
        | Some x => (Ok x, g')
        | None => (Raise IndexError, g')
        end
    end.

(** The seed handed to [default_rng]: the given one, or entropy of
    the operating system when the seed is [None]. *)
Definition seed_or (entropy : Z) (seed : option Z) : Z :=
  match seed with
  | Some s => s
  | None => entropy
  end.

(** ** [class RandomAgent] *)
Module RandomAgent.
Section WithGenerator.
Context `{Generator G}.

Record t : Type := mk {
  actions : list Z;
  best_action_sequence : list Z;
  highest_reward_episode : float64;
  rng : G
}.

Definition __init__ (actions : list Z) (seed : option Z) (entropy : Z) : t :=
  {| actions := actions;
     best_action_sequence := [];
     highest_reward_episode := S754_infinity true;
     rng := default_rng (seed_or entropy seed) |}.

Definition set_rng (g : G) (ag : t) : t :=
  {| actions := actions ag;
     best_action_sequence := best_action_sequence ag;
     highest_reward_episode := highest_reward_episode ag;
     rng := g |}.

(** [return self.rng.choice(self.actions)] *)
Definition get_action : M t Z :=
  fun ag =>
    let '(r, g') := rng_choice (actions ag) (rng ag) in
    (r, set_rng g' ag).

End WithGenerator.
Arguments t G : clear implicits.
End RandomAgent.

(** ** [class QLearningAgent] *)
Module QLearningAgent.
Section WithGenerator.
Context `{Generator G}.

Record t : Type := mk {
  actions : list Z;
  qtable : Np.ndarray2;
  learning_rate : float64;
  discount_factor : float64;
  rng : G
}.

(** [__init__(self, nstates, actions, learning_rate, discount_factor, seed)] *)
Definition __init__ (nstates : Z) (actions : list Z)
    (learning_rate discount_factor : float64)
    (seed : option Z) (entropy : Z) : res t :=
  res_bind (Np.zeros nstates (length actions)) (fun q =>
  Ok {| actions := actions;
        qtable := q;
        learning_rate := learning_rate;
        discount_factor := discount_factor;
        rng := default_rng (seed_or entropy seed) |}).

Definition set_rng (g : G) (ag : t) : t :=
  {| actions := actions ag;
     qtable := qtable ag;
     learning_rate := learning_rate ag;
     discount_factor := discount_factor ag;
     rng := g |}.

Definition set_qtable (q : Np.ndarray2) (ag : t) : t :=
  {| actions := actions ag;
     qtable := q;
     learning_rate := learning_rate ag;
     discount_factor := discount_factor ag;
     rng := rng ag |}.

(** A draw from [self.rng]. *)
Definition with_rng {A : Type} (m : M G A) : M t A :=
  fun ag => let '(r, g') := m (rng ag) in (r, set_rng g' ag).

(** [np.argmax(self.qtable[state])] *)
Definition greedy (q : Np.ndarray2) (state : Z) : res Z :=
  res_bind (Np.get_row q state) (fun row =>
  res_bind (Np.argmax row) (fun i => Ok (Z.of_nat i))).

(** [[
    def get_action(self, state, epsilon=0):
        if self.rng.uniform(0, 1) < epsilon:
            action = self.rng.choice(self.actions)
        else:
            action = np.argmax(self.qtable[state])
        return action
    ]] *)
Definition get_action (state : Z) (epsilon : float64) : M t Z :=
  u ← with_rng (fun g => let '(u, g') := rng_uniform g in (Ok u, g'));
  if F64.ltb u epsilon then
    acts ← gets actions;
    with_rng (rng_choice acts)
  else
    q ← gets qtable;
    lift (greedy q state).

(** The value written by the update: [old + lr*(reward + df*m - old)],
    with Python's precedence and left-to-right association. *)
Definition td_value (lr df old reward m : float64) : float64 :=
  F64.add old (F64.mul lr (F64.sub (F64.add reward (F64.mul df m)) old)).

(** [[
    def update_qtable(self, current_state, next_state, action, reward):
        old_qvalue = self.qtable[current_state, action]
        new_qvalue = (old_qvalue + self.learning_rate*(reward
                      + self.discount_factor * np.max(self.qtable[next_state])
                      - old_qvalue))
        self.qtable[current_state, action] = new_qvalue
    ]] *)
Definition update_qtable (current_state next_state action : Z)
    (reward : float64) : M t unit :=
  q ← gets qtable;
  old_qvalue ← lift (Np.get2 q current_state action);
  lr ← gets learning_rate;
  df ← gets discount_factor;
  row ← lift (Np.get_row q next_state);
  m ← lift (Np.max row);
  let new_qvalue := td_value lr df old_qvalue reward m in
  q' ← lift (Np.set2 q current_state action new_qvalue);
  modify (set_qtable q').

(** A method call on an agent, and the agent left by a sequence of
    calls, each of which may return or raise. *)
Inductive call : Type :=
| GetAction (state : Z) (epsilon : float64)
| UpdateQtable (current_state next_state action : Z) (reward : float64).

Definition do_call (ag : t) (c : call) : t :=
  match c with
  | GetAction state epsilon => (get_action state epsilon ag).2
  | UpdateQtable s s' a r => (update_qtable s s' a r ag).2
  end.

Definition do_calls (cs : list call) (ag : t) : t := fold_left do_call cs ag.

End WithGenerator.
Arguments t G : clear implicits.
End QLearningAgent.

(** What no call changes in an agent: the dimensions of the table,
    the actions, the learning rate and the discount factor. *)
Definition same_frame `{Generator G} (n m : nat)
    (ag ag' : QLearningAgent.t G) : Prop :=
  Np.has_shape (QLearningAgent.qtable ag') n m /\
  QLearningAgent.actions ag' = QLearningAgent.actions ag /\
  QLearningAgent.learning_rate ag' = QLearningAgent.learning_rate ag /\
  QLearningAgent.discount_factor ag' = QLearningAgent.discount_factor ag.

(** ** The environment interface

    [office_gym.OfficeEnv] is imported by the notebook; the loops use
    [env.reset(seed)], which returns the initial state, and
    [env.step(action)], which returns [(next_state, reward, done,
    info)] ([info] is never read and is left out). *)
Class Env (E : Type) : Type := {
  env_reset : option Z -> M E Z;
  env_step : Z -> M E (Z * float64 * bool)
}.

(** ** The episode loops *)

(** How a loop run under a bound on its iterations ends: its
    condition became false, an exception left it, or the bound was
    reached with the loop still running. *)
Inductive outcome (A : Type) : Type :=
| Finished (a : A)
| Raised (e : py_exn)
| OutOfFuel.
Arguments Finished {A} a.
Arguments Raised {A} e.
Arguments OutOfFuel {A}.

(** [[
    done = False
    while not done:
        body
    ]]
    The body maps the local variables [l] to their new values and the
    new [done], acting on the objects [w]. *)
Fixpoint while_not_done {W L : Type} (body : L -> M W (L * bool))
    (fuel : nat) (l : L) (w : W) : outcome L * W :=
  match fuel with
  | O => (OutOfFuel, w)
  | S fuel' =>
      match body l w with
      | (Ok (l', done), w') =>
          if done then (Finished l', w')
          else while_not_done body fuel' l' w'
      | (Raise e, w') => (Raised e, w')
      end
  end.

(** [k] iterations of the body, none of which reports [done] or
    raises, lead from one state of the loop to another. *)
Inductive iterates {W L : Type} (body : L -> M W (L * bool))
  : nat -> L -> W -> L -> W -> Prop :=
| iterates_O (l : L) (w : W) : iterates body O l w l w
| iterates_S (k : nat) (l l1 l2 : L) (w w1 w2 : W) :
    body l w = (Ok (l1, false), w1) ->
    iterates body k l1 w1 l2 w2 ->
    iterates body (S k) l w l2 w2.

(** The objects of a run: an agent and the environment. *)
Definition on_agent {Ag E A : Type} (m : M Ag A) : M (Ag * E) A :=
  fun w => let '(r, ag') := m w.1 in (r, (ag', w.2)).

Definition on_env {Ag E A : Type} (m : M E A) : M (Ag * E) A :=
  fun w => let '(r, e') := m w.2 in (r, (w.1, e')).

Section Loops.
Context `{Generator G} `{Env E}.

(** The body of the random search loop:
    [[
    action = agent.get_action()
    state, reward, done, info = env_easy.step(action)
    reward_episode += reward
    actions += [action]
    ]]
    The locals are [(reward_episode, actions)]. *)
Definition random_body (l : float64 * list Z)
  : M (RandomAgent.t G * E) ((float64 * list Z) * bool) :=
  action ← on_agent RandomAgent.get_action;
  '(state, reward, done) ← on_env (env_step action);
  ret ((F64.add l.1 reward, l.2 ++ [action]), done).

(** One episode of the random search, up to the bookkeeping of the
    best sequence. *)
Definition random_episode (fuel : nat) (w : RandomAgent.t G * E)
  : outcome (float64 * list Z) * (RandomAgent.t G * E) :=
  match on_env (env_reset None) w with
  | (Ok _, w1) => while_not_done random_body fuel (F64.zero, []) w1
  | (Raise e, w1) => (Raised e, w1)
  end.

(** The body of both training loops:
    [[
    action = agent.get_action(state, epsilon)
    next_state, reward, done, info = env.step(action)
    agent.update_qtable(state, next_state, action, reward)
    state = next_state
    ]]
    The local is [state]. *)
Definition train_body (epsilon : float64) (state : Z)
  : M (QLearningAgent.t G * E) (Z * bool) :=
  action ← on_agent (QLearningAgent.get_action state epsilon);
  '(next_state, reward, done) ← on_env (env_step action);
  _ ← on_agent (QLearningAgent.update_qtable state next_state action reward);
  ret (next_state, done).

(** One training episode: [state = env.reset()], then the loop. *)
Definition train_episode (fuel : nat) (epsilon : float64)
    (w : QLearningAgent.t G * E) : outcome Z * (QLearningAgent.t G * E) :=
  match on_env (env_reset None) w with
  | (Ok state, w1) => while_not_done (train_body epsilon) fuel state w1
  | (Raise e, w1) => (Raised e, w1)
  end.








End Loops.

(** ** The outer loops of the notebook *)

(** Python's [max(a, b)]: [b] when [b > a], else [a]. *)
Definition py_max (a b : float64) : float64 :=
  if F64.ltb a b then b else a.

Section OuterLoops.
Context `{Generator G} `{Env E}.

(** The bookkeeping after an episode of the random search:
    [[
    if reward_episode > agent.highest_reward_episode:
        agent.best_action_sequence = actions
        agent.highest_reward_episode = reward_episode
    ]] *)
Definition record_best (l : float64 * list Z) (ag : RandomAgent.t G)
  : RandomAgent.t G :=
  if F64.ltb (RandomAgent.highest_reward_episode ag) l.1 then
    {| RandomAgent.actions := RandomAgent.actions ag;
       RandomAgent.best_action_sequence := l.2;
       RandomAgent.highest_reward_episode := l.1;
       RandomAgent.rng := RandomAgent.rng ag |}
  else ag.

(** The body of [for i in range(nepisodes)]: an episode, then the
    bookkeeping. *)
Definition search_episode (fuel : nat) (w : RandomAgent.t G * E)
  : outcome unit * (RandomAgent.t G * E) :=
  match random_episode fuel w with
  | (Finished l, w') => (Finished tt, (record_best l w'.1, w'.2))
  | (Raised x, w') => (Raised x, w')
  | (OutOfFuel, w') => (OutOfFuel, w')
  end.

(** [for i in range(nepisodes): ...], each inner loop under the bound
    [fuel]. *)
Fixpoint random_search (fuel nepisodes : nat) (w : RandomAgent.t G * E)
  : outcome unit * (RandomAgent.t G * E) :=
  match nepisodes with
  | O => (Finished tt, w)
  | S n =>
      match search_episode fuel w with
      | (Finished _, w') => random_search fuel n w'
      | other => other
      end
  end.

(** [epsilon**2] is computed by the [pow] of the C library, which is
    a parameter here. *)
Variable square : float64 -> float64.

(** [epsilon = max(floor, epsilon**2)], with [floor] 0.2 in the easy
    mode and 0.25 in the hard one. *)
Definition decay (floor epsilon : float64) : float64 :=
  py_max floor (square epsilon).

(** The easy-mode training:
    [[
    for i in range(n):
        state = env_easy.reset()
        while not done: ...
        epsilon = max(floor, epsilon**2)
    ]]
    It returns the last [epsilon]. *)
Fixpoint train_loop (floor : float64) (fuel n : nat) (epsilon : float64)
    (w : QLearningAgent.t G * E) : outcome float64 * (QLearningAgent.t G * E) :=
  match n with
  | O => (Finished epsilon, w)
  | S n' =>
      match train_episode fuel epsilon w with
      | (Finished _, w') => train_loop floor fuel n' (decay floor epsilon) w'
      | (Raised x, w') => (Raised x, w')
      | (OutOfFuel, w') => (OutOfFuel, w')
      end
  end.

(** The notebook's run: 100 episodes from [epsilon = 0.99] with floor
    0.2. *)
Definition train_easy (fuel : nat) (w : QLearningAgent.t G * E)
  : outcome float64 * (QLearningAgent.t G * E) :=
  train_loop (F64.lit 2 10) fuel 100 (F64.lit 99 100) w.

End OuterLoops.

(** ** The grid environment *)
Module GridEnv.

Inductive kind : Type :=
| free
| wall
| start
| goal (p : float64)
| hazard.

Record cell : Type := mk_cell { cell_kind : kind; slippery : bool }.

Definition grid : Type := list (list cell).

Inductive direction : Type := up | down | left | right.

(** Row and column of a cell. *)
Definition coord : Type := (nat * nat)%type.

Definition direction_of_action (a : Z) : res direction :=
  if a =? 0 then Ok up
  else if a =? 1 then Ok down
  else if a =? 2 then Ok left
  else if a =? 3 then Ok right
  else Raise InvalidAction.

Definition cell_at (g : grid) (c : coord) : option cell :=
  match g !! c.1 with
  | Some row => row !! c.2
  | None => None
  end.

Definition is_wall (cl : cell) : bool :=
  match cell_kind cl with wall => true | _ => false end.

Definition is_start (cl : cell) : bool :=
  match cell_kind cl with start => true | _ => false end.

(** The neighbour in a direction, if the index does not leave the
    naturals. *)
Definition neighbour (c : coord) (d : direction) : option coord :=
  match d, c with
  | up, (O, _) => None
  | up, (S r, k) => Some (r, k)
  | down, (r, k) => Some (S r, k)
  | left, (_, O) => None
  | left, (r, S k) => Some (r, k)
  | right, (r, k) => Some (r, S k)
  end.

(** The destination of a move: the neighbour, or the current cell
    when the neighbour is a wall or outside the grid (a bump). *)
Definition destination (g : grid) (c : coord) (d : direction) : coord :=
  match neighbour c d with
  | Some c' =>
      match cell_at g c' with
      | Some cl => if is_wall cl then c else c'
      | None => c
      end
  | None => c
  end.

(** The two directions perpendicular to a direction. *)
Definition perpendicular (d : direction) : direction * direction :=
  match d with
  | up | down => (left, right)
  | left | right => (up, down)
  end.

(** The direction taken from a slippery cell, from a draw among
    three equally likely cases: the intended direction or one of its
    perpendiculars, never the reverse. *)
Definition slip (d : direction) (k : nat) : direction :=
  match k with
  | O => d
  | S O => (perpendicular d).1
  | _ => (perpendicular d).2
  end.

(** The cells that are not walls, row by row: the state of a cell
    is its index in this list. *)
Definition row_coords (r : nat) (row : list cell) : list coord :=
  omap (fun p : nat * cell => if is_wall p.2 then None else Some (r, p.1))
       (imap pair row).

Definition coords (g : grid) : list coord :=
  concat (imap row_coords g).

Definition state_of_coord (g : grid) (c : coord) : option Z :=
  (fun p : nat * coord => Z.of_nat p.1) <$> list_find (fun c' => c' = c) (coords g).

Definition coord_of_state (g : grid) (s : Z) : option coord :=
  if s <? 0 then None else coords g !! Z.to_nat s.

Definition starts_at (g : grid) (c : coord) : bool :=
  match cell_at g c with
  | Some cl => is_start cl
  | None => false
  end.

(** The designated start cell: the first one in the layout. *)
Definition start_coord (g : grid) : option coord :=
  snd <$> list_find (fun c => Is_true (starts_at g c)) (coords g).

Section WithGenerator.
Context `{Generator G}.

(** The environment: the layout, the current cell ([None] before
    the first reset), its own generator, and the entropy of the
    operating system as a sequence, one value consumed by each
    unseeded reset. *)
Record t : Type := mk {
  layout : grid;
  pos : option coord;
  rng : G;
  entropy : nat -> Z;
  resets : nat
}.

Definition the_state (g : grid) (c : coord) : Z :=
  default 0 (state_of_coord g c).

(** Modelled from the spec: [OfficeEnv.reset] of [office_gym.py],
    which the notebook imports.  It reseeds the generator from the
    seed when one is given, else from fresh entropy, sets the
    current state to the start cell and returns that state; a
    negative seed is an [InvalidSeed]. *)
Definition reset (seed : option Z) : M t Z :=
  fun e =>
    match seed with
    | Some s =>
        if s <? 0 then (Raise InvalidSeed, e)
        else
          match start_coord (layout e) with
          | Some c0 =>
              (Ok (the_state (layout e) c0),
               {| layout := layout e; pos := Some c0;
                  rng := default_rng s;
                  entropy := entropy e; resets := resets e |})
          | None => (Raise EnvironmentNotInitialized, e)
          end
    | None =>
        match start_coord (layout e) with
        | Some c0 =>
            (Ok (the_state (layout e) c0),
             {| layout := layout e; pos := Some c0;
                rng := default_rng (entropy e (resets e));
                entropy := entropy e; resets := S (resets e) |})
        | None => (Raise EnvironmentNotInitialized, e)
        end
    end.

Definition set_pos_rng (c : coord) (g : G) (e : t) : t :=
  {| layout := layout e; pos := Some c; rng := g;
     entropy := entropy e; resets := resets e |}.

(** Modelled from the spec: [OfficeEnv.step] of [office_gym.py].
    An action outside the four directions is an [InvalidAction]; a
    step before the first reset is an [EnvironmentNotInitialized].
    From a slippery cell the direction is resampled.  The move is
    resolved by the bump rule; a hazard gives -10 and ends the
    episode with the state back at the start; a goal succeeds with
    its probability (+10) or fails (-10, back at the start), and
    ends the episode; any other cell gives -1 and the episode goes
    on from there. *)
Definition step (action : Z) : M t (Z * float64 * bool) :=
  fun e =>
    match direction_of_action action with
    | Raise x => (Raise x, e)
    | Ok d =>
        match pos e, start_coord (layout e) with
        | Some c, Some c0 =>
            let '(d', g1) :=
              match cell_at (layout e) c with
              | Some cl =>
                  if slippery cl then
                    let '(k, g') := rng_integers 3 (rng e) in (slip d k, g')
                  else (d, rng e)
              | None => (d, rng e)
              end in
            let c' := destination (layout e) c d' in
            match cell_kind <$> cell_at (layout e) c' with
            | Some hazard =>
                (Ok (the_state (layout e) c0, F64.of_Z (-10), true),
                 set_pos_rng c0 g1 e)
            | Some (goal p) =>
                let '(u, g2) := rng_uniform g1 in
                if F64.ltb u p then
                  (Ok (the_state (layout e) c', F64.of_Z 10, true),
                   set_pos_rng c' g2 e)
                else
                  (Ok (the_state (layout e) c0, F64.of_Z (-10), true),
                   set_pos_rng c0 g2 e)
            | _ =>
                (Ok (the_state (layout e) c', F64.of_Z (-1), false),
                 set_pos_rng c' g1 e)
            end
        | _, _ => (Raise EnvironmentNotInitialized, e)
        end
    end.

#[global] Instance grid_env : Env t :=
  {| env_reset := reset; env_step := step |}.

(** The (state, reward, done) trace of a sequence of actions, and
    the environment they leave; the trace ends at the first
    exception, which is its last entry. *)
Fixpoint run_actions (acts : list Z) (e : t)
  : list (res (Z * float64 * bool)) * t :=
  match acts with
  | [] => ([], e)
  | a :: acts' =>
      match step a e with
      | (Ok o, e') =>
          let '(tr, e'') := run_actions acts' e' in (Ok o :: tr, e'')
      | (Raise x, e') => ([Raise x], e')
      end
  end.

(** [reset(seed)] followed by the actions: the initial state with
    the trace, and the environment left. *)
Definition run (seed : Z) (acts : list Z) (e : t)
  : (res Z * list (res (Z * float64 * bool))) * t :=
  match reset (Some seed) e with
  | (Ok s0, e') => let '(tr, e'') := run_actions acts e' in ((Ok s0, tr), e'')
  | (Raise x, e') => ((Raise x, []), e')
  end.

(** Two environments that differ at most in the entropy they have
    left. *)
Definition agree (e1 e2 : t) : Prop :=
  layout e1 = layout e2 /\ pos e1 = pos e2 /\ rng e1 = rng e2.

End WithGenerator.
Arguments t G : clear implicits.
End GridEnv.

(** ** A small generator for the examples

    A linear congruential generator modulo 2^16 standing in for
    numpy's PCG64: [uniform] yields one of 0, 1/4, 1/2, 3/4 from two
    bits of the state, [integers] a residue of the state. *)
Module Lcg.

Definition next (s : Z) : Z := (s * 25173 + 13849) mod 65536.

Definition f0_25 : float64 := Eval vm_compute in F64.lit 1 4.
Definition f0_5 : float64 := Eval vm_compute in F64.lit 1 2.
Definition f0_75 : float64 := Eval vm_compute in F64.lit 3 4.

Definition quarter (k : Z) : float64 :=
  if k =? 0 then F64.zero
  else if k =? 1 then f0_25
  else if k =? 2 then f0_5
  else f0_75.

Definition uniform (s : Z) : float64 * Z :=
  let s' := next s in (quarter ((s' / 16384) mod 4), s').

Definition integers (n : nat) (s : Z) : nat * Z :=
  let s' := next s in (Z.to_nat ((s' / 256) mod Z.of_nat n), s').

End Lcg.

(** ** Layouts for the examples *)
Module Examples.
Import GridEnv.

Definition c_free : cell := mk_cell free false.
Definition c_start : cell := mk_cell start false.
Definition c_wall : cell := mk_cell wall false.
Definition c_hazard : cell := mk_cell hazard false.

(** A small office: the start, a free cell and a wall in the first
    row; a free cell, a construction area and a printer that always
    works, on a slippery cell, in the second. *)
Definition office : grid :=
  [[c_start; c_free; c_wall];
   [c_free; c_hazard; mk_cell (goal F64.one) true]].

(** The numbers of the notebook. *)
Definition f0_5 : float64 := Eval vm_compute in F64.lit 1 2.
Definition f0_99 : float64 := Eval vm_compute in F64.lit 99 100.
Definition minus_one : float64 := Eval vm_compute in F64.of_Z (-1).
Definition minus_half : float64 := Eval vm_compute in F64.lit (-1) 2.
Definition ten : float64 := Eval vm_compute in F64.of_Z 10.
Definition minus_ten : float64 := Eval vm_compute in F64.of_Z (-10).

(** [-10 + 0.99 * 10] in exact arithmetic, where [0.99] is the
    binary64 number of that literal: about [-0.10000000000000009]. *)
Definition minus_tenth : float64 := S754_finite true 7205759403792800 (-56).

End Examples.

#[global] Instance lcg_generator : Generator Z.
Proof.
  refine {| default_rng := fun seed => seed mod 65536;
            rng_uniform := Lcg.uniform;
            rng_integers := Lcg.integers |}.
  - intros g. unfold Lcg.uniform, Lcg.quarter. cbn [fst].
    repeat case_match; split; reflexivity.
  - intros n g Hn. unfold Lcg.integers. cbn [fst].
    pose proof (Z.mod_pos_bound (Lcg.next g / 256) (Z.of_nat n)). lia.
Defined.

(** ** Agents and environments for the examples, on the small generator *)
Module Ex.
Import Examples.

(** [QLearningAgent(nstates=5, actions=np.arange(4), learning_rate=0.5,
    discount_factor=0.99, seed=5)] *)
Definition agent0 : QLearningAgent.t Z :=
  {| QLearningAgent.actions := Np.arange 4;
     QLearningAgent.qtable := replicate 5 (replicate 4 F64.zero);
     QLearningAgent.learning_rate := f0_5;
     QLearningAgent.discount_factor := f0_99;
     QLearningAgent.rng := 5 |}.

(** The agent after two updates: [Q(0,3) = 5] and [Q(1,0) = -0.5]. *)
Definition history : list QLearningAgent.call :=
  [QLearningAgent.UpdateQtable 0 1 3 ten;
   QLearningAgent.UpdateQtable 1 1 0 minus_one].

Definition agent1 : QLearningAgent.t Z :=
  Eval vm_compute in QLearningAgent.do_calls history agent0.

(** The same agent with an infinite learning rate, on one state and
    one action. *)
Definition agent_inf : QLearningAgent.t Z :=
  {| QLearningAgent.actions := Np.arange 1;
     QLearningAgent.qtable := [[F64.zero]];
     QLearningAgent.learning_rate := F64.infinity;
     QLearningAgent.discount_factor := f0_99;
     QLearningAgent.rng := 0 |}.

(** An agent with [Q(0,0) = minus_tenth] and [Q(1,0) = 10]. *)
Definition agent_round : QLearningAgent.t Z :=
  {| QLearningAgent.actions := Np.arange 1;
     QLearningAgent.qtable := [[minus_tenth]; [ten]];
     QLearningAgent.learning_rate := f0_5;
     QLearningAgent.discount_factor := f0_99;
     QLearningAgent.rng := 0 |}.

(** [RandomAgent(actions=np.arange(4), seed=3)] *)
Definition random_agent : RandomAgent.t Z :=
  RandomAgent.__init__ (Np.arange 4) (Some 3) 0.

(** The office before its first reset, and with the employee on the
    free cell above the construction area. *)
Definition office_env : GridEnv.t Z :=
  {| GridEnv.layout := office; GridEnv.pos := None; GridEnv.rng := 7;
     GridEnv.entropy := fun n => Z.of_nat n; GridEnv.resets := 0 |}.

Definition office_env_at_1 : GridEnv.t Z :=
  {| GridEnv.layout := office; GridEnv.pos := Some (0, 1)%nat;
     GridEnv.rng := 11; GridEnv.entropy := fun n => 2 * Z.of_nat n;
     GridEnv.resets := 3 |}.

End Ex.

(* ===================================================================== *)
(** * Part II: properties                                                 *)
(* ===================================================================== *)

(** ** The order of binary64 numbers *)
Section F64Order.
Import F64.

Lemma leb_rank (x y : float64) :
  is_nan x = false -> is_nan y = false ->
  (leb x y = true <-> lex_le (rank x) (rank y)).
Proof.
  intros Hx Hy.
  destruct x as [sx|sx| |sx mx ex], y as [sy|sy| |sy my ey];
    try discriminate; unfold leb, SFleb, SFcompare, lex_le, rank;
    repeat match goal with s : bool |- _ => destruct s end;
    try (split; [intros _; lia | reflexivity]);
    try (split; [discriminate | lia]);
    change (Pos.compare_cont Eq mx my) with (Pos.compare mx my);
    destruct (Z.compare_spec ex ey), (Pos.compare_spec mx my);
    cbn [CompOpp]; split; intros; try reflexivity; try discriminate; lia.
Qed.

Lemma ltb_rank (x y : float64) :
  is_nan x = false -> is_nan y = false ->
  (ltb x y = true <-> lex_lt (rank x) (rank y)).
Proof.
  intros Hx Hy.
  destruct x as [sx|sx| |sx mx ex], y as [sy|sy| |sy my ey];
    try discriminate; unfold ltb, SFltb, SFcompare, lex_lt, rank;
    repeat match goal with s : bool |- _ => destruct s end;
    try (split; [intros _; lia | reflexivity]);
    try (split; [discriminate | lia]);
    change (Pos.compare_cont Eq mx my) with (Pos.compare mx my);
    destruct (Z.compare_spec ex ey), (Pos.compare_spec mx my);
    cbn [CompOpp]; split; intros; try reflexivity; try discriminate; lia.
Qed.

Lemma leb_not_nan (x y : float64) :
  leb x y = true -> is_nan x = false /\ is_nan y = false.
Proof. destruct x, y; try discriminate; auto. Qed.

Lemma ltb_not_nan (x y : float64) :
  ltb x y = true -> is_nan x = false /\ is_nan y = false.
Proof. destruct x, y; try discriminate; auto. Qed.

Ltac by_rank :=
  repeat match goal with
    | H : leb _ _ = true |- _ =>
        let N := fresh in
        pose proof (leb_not_nan _ _ H) as [? ?];
        apply leb_rank in H; [|assumption|assumption]
    | H : ltb _ _ = true |- _ =>
        let N := fresh in
        pose proof (ltb_not_nan _ _ H) as [? ?];
        apply ltb_rank in H; [|assumption|assumption]
    end;
  try (apply leb_rank; [assumption|assumption|]);
  try (apply ltb_rank; [assumption|assumption|]);
  unfold lex_le, lex_lt in *;
  repeat match goal with
    | |- context [rank ?x] => destruct (rank x) as [[? ?] ?]
    | H : context [rank ?x] |- _ => destruct (rank x) as [[? ?] ?]
    end;
  lia.

Lemma leb_refl (x : float64) : is_nan x = false -> leb x x = true.
Proof. intros Hx. by_rank. Qed.

Lemma ltb_leb (x y : float64) : ltb x y = true -> leb x y = true.
Proof. intros H. by_rank. Qed.

Lemma leb_trans (x y z : float64) :
  leb x y = true -> leb y z = true -> leb x z = true.
Proof. intros H1 H2. by_rank. Qed.

Lemma leb_ltb_trans (x y z : float64) :
  leb x y = true -> ltb y z = true -> ltb x z = true.
Proof. intros H1 H2. by_rank. Qed.

(** The order is total away from NaN: [not (x <= y)] is [y < x]. *)
Lemma not_leb_ltb (x y : float64) :
  is_nan x = false -> is_nan y = false -> leb x y = false -> ltb y x = true.
Proof.
  intros Hx Hy H.
  assert (~ lex_le (rank x) (rank y)) as Hn.
  { intros Hle. apply leb_rank in Hle; [congruence|assumption|assumption]. }
  apply ltb_rank; [assumption|assumption|].
  unfold lex_le, lex_lt in *.
  destruct (rank x) as [[? ?] ?], (rank y) as [[? ?] ?]. lia.
Qed.

Lemma ltb_irrefl_leb (x y : float64) :
  ltb x y = true -> leb y x = false.
Proof.
  intros H. destruct (leb y x) eqn:E; [|reflexivity]. exfalso. by_rank.
Qed.

(** Equal finite numbers have the same sign, mantissa and exponent. *)
Lemma eqb_finite_inv (s1 s2 : bool) (m1 m2 : positive) (e1 e2 : Z) :
  eqb (S754_finite s1 m1 e1) (S754_finite s2 m2 e2) = true ->
  s1 = s2 /\ m1 = m2 /\ e1 = e2.
Proof.
  unfold eqb, SFeqb, SFcompare.
  change (Pos.compare_cont Eq m1 m2) with (Pos.compare m1 m2).
  destruct s1, s2; try discriminate;
    destruct (Z.compare_spec e1 e2), (Pos.compare_spec m1 m2);
    cbn [CompOpp]; try discriminate; auto.
Qed.

Lemma eqb_finite_refl (x : float64) : is_finite x = true -> eqb x x = true.
Proof.
  destruct x as [s|s| |s m e]; try discriminate; intros _; try reflexivity.
  unfold eqb, SFeqb, SFcompare.
  change (Pos.compare_cont Eq m m) with (Pos.compare m m).
  rewrite Z.compare_refl, Pos.compare_refl. destruct s; reflexivity.
Qed.

(** [x - y] is a zero when [x == y] and [y] is finite. *)
Lemma sub_eqb_zero (x y : float64) :
  is_finite y = true -> eqb x y = true -> exists s, sub x y = S754_zero s.
Proof.
  intros Hy Hxy.
  destruct x as [sx|sx| |sx mx ex], y as [sy|sy| |sy my ey];
    try discriminate;
    try (destruct sx; discriminate); try (destruct sy; discriminate).
  - destruct sx, sy; eexists; reflexivity.
  - apply eqb_finite_inv in Hxy as (-> & -> & ->).
    exists false. unfold sub, SFsub. rewrite Z.sub_diag. reflexivity.
Qed.

(** A finite number times a zero is a zero. *)
Lemma mul_finite_zero (a : float64) (s : bool) :
  is_finite a = true -> exists s', mul a (S754_zero s) = S754_zero s'.
Proof.
  destruct a; try discriminate; intros _; eexists; reflexivity.
Qed.

(** Adding a zero to a finite number gives a number equal to it, and
    the number itself unless it is the negative zero. *)
Lemma add_zero_finite (x : float64) (s : bool) :
  is_finite x = true ->
  eqb (add x (S754_zero s)) x = true /\
  (x <> S754_zero true -> add x (S754_zero s) = x).
Proof.
  intros Hx. destruct x as [sx|sx| |sx mx ex]; try discriminate.
  - destruct sx, s; cbn; split; try reflexivity; congruence.
  - split; [|reflexivity]. change (add (S754_finite sx mx ex) (S754_zero s))
      with (S754_finite sx mx ex). apply eqb_finite_refl. reflexivity.
Qed.

End F64Order.

(** ** Arrays *)
Section NpFacts.
Import Np.

Lemma norm_index_nonneg (n : nat) (i : Z) :
  0 <= i < Z.of_nat n -> norm_index n i = Ok (Z.to_nat i).
Proof.
  intros Hi. unfold norm_index.
  destruct (Z.leb_spec 0 i), (Z.ltb_spec i (Z.of_nat n)); try lia. reflexivity.
Qed.

Lemma norm_index_lt (n : nat) (i : Z) (k : nat) :
  norm_index n i = Ok k -> (k < n)%nat.
Proof.
  unfold norm_index.
  destruct (Z.leb_spec 0 i), (Z.ltb_spec i (Z.of_nat n)); cbn [andb];
    try (intros [= <-]; lia);
    destruct (Z.leb_spec (- Z.of_nat n) i), (Z.ltb_spec i 0); cbn [andb];
    try (destruct (overflows i); discriminate); intros [= <-]; lia.
Qed.

Lemma has_shape_row (t : ndarray2) (n m r : nat) (row : ndarray1) :
  has_shape t n m -> t !! r = Some row -> length row = m.
Proof.
  intros [_ Hrows] Hr. rewrite Forall_lookup in Hrows. exact (Hrows r row Hr).
Qed.

Lemma has_shape_zeros (n : Z) (m : nat) (t : ndarray2) :
  zeros n m = Ok t -> has_shape t (Z.to_nat n) m.
Proof.
  unfold zeros. destruct (n <? 0); [discriminate|]. intros [= <-]. split.
  - apply length_replicate.
  - apply Forall_forall. intros row Hrow.
    apply elem_of_replicate in Hrow as [-> _]. apply length_replicate.
Qed.

Lemma cell_zeros (n : Z) (m : nat) (t : ndarray2) (r c : nat) (x : float64) :
  zeros n m = Ok t -> cell t r c = Some x -> x = F64.zero.
Proof.
  unfold zeros, cell. destruct (n <? 0); [discriminate|]. intros [= <-].
  destruct (_ !! r) as [row|] eqn:Hr; [|discriminate].
  apply lookup_replicate in Hr as [-> _]. intros Hc.
  apply lookup_replicate in Hc as [-> _]. reflexivity.
Qed.

Lemma get_row_ok (t : ndarray2) (i : Z) :
  0 <= i < Z.of_nat (length t) ->
  exists row, t !! Z.to_nat i = Some row /\ get_row t i = Ok row.
Proof.
  intros Hi. unfold get_row. rewrite norm_index_nonneg by exact Hi. cbn [res_bind].
  destruct (lookup_lt_is_Some_2 t (Z.to_nat i)) as [row Hrow]; [lia|].
  exists row. rewrite Hrow. split; reflexivity.
Qed.

Lemma get_row_inv (t : ndarray2) (i : Z) (row : ndarray1) :
  get_row t i = Ok row -> exists r, norm_index (length t) i = Ok r /\ t !! r = Some row.
Proof.
  unfold get_row. destruct (norm_index (length t) i) as [r|] eqn:Hn; [|discriminate].
  cbn [res_bind]. destruct (t !! r) as [row'|] eqn:Hr; [|discriminate].
  intros [= <-]. exists r. split; [reflexivity | exact Hr].
Qed.

Lemma get2_cell (t : ndarray2) (i j : Z) (x : float64) :
  get2 t i j = Ok x ->
  exists r c row, norm_index (length t) i = Ok r /\ t !! r = Some row /\
    norm_index (length row) j = Ok c /\ cell t r c = Some x.
Proof.
  unfold get2. destruct (get_row t i) as [row|] eqn:Hrow; [|discriminate].
  apply get_row_inv in Hrow as (r & Hn & Hr). cbn [res_bind]. unfold get1.
  destruct (norm_index (length row) j) as [c|] eqn:Hc; [|discriminate]. cbn [res_bind].
  destruct (row !! c) as [y|] eqn:Hy; [|discriminate]. intros [= <-].
  exists r, c, row. unfold cell. rewrite Hr. auto.
Qed.

Lemma get2_ok (t : ndarray2) (n m : nat) (i j : Z) :
  has_shape t n m -> 0 <= i < Z.of_nat n -> 0 <= j < Z.of_nat m ->
  exists x, cell t (Z.to_nat i) (Z.to_nat j) = Some x /\ get2 t i j = Ok x.
Proof.
  intros Hs Hi Hj. pose proof Hs as [Hlen _].
  destruct (get_row_ok t i) as (row & Hr & Hrow); [lia|].
  pose proof (has_shape_row _ _ _ _ _ Hs Hr) as Hm.
  destruct (lookup_lt_is_Some_2 row (Z.to_nat j)) as [x Hx]; [lia|].
  exists x. unfold cell, get2, get1. rewrite Hr, Hrow. cbn [res_bind].
  rewrite norm_index_nonneg by lia. cbn [res_bind]. rewrite Hx. auto.
Qed.

Lemma set2_inv (t t' : ndarray2) (i j : Z) (x : float64) :
  set2 t i j x = Ok t' ->
  exists r c row, norm_index (length t) i = Ok r /\ t !! r = Some row /\
    norm_index (length row) j = Ok c /\ t' = <[r := <[c := x]> row]> t.
Proof.
  unfold set2. destruct (norm_index (length t) i) as [r|] eqn:Hn; [|discriminate].
  cbn [res_bind]. destruct (t !! r) as [row|] eqn:Hr; [|discriminate].
  destruct (norm_index (length row) j) as [c|] eqn:Hc; [|discriminate]. cbn [res_bind].
  intros [= <-]. exists r, c, row. auto.
Qed.

Lemma set2_ok (t : ndarray2) (n m : nat) (i j : Z) (x : float64) :
  has_shape t n m -> 0 <= i < Z.of_nat n -> 0 <= j < Z.of_nat m ->
  exists row, t !! Z.to_nat i = Some row /\
    set2 t i j x = Ok (<[Z.to_nat i := <[Z.to_nat j := x]> row]> t).
Proof.
  intros Hs Hi Hj. pose proof Hs as [Hlen _].
  destruct (get_row_ok t i) as (row & Hr & _); [lia|].
  pose proof (has_shape_row _ _ _ _ _ Hs Hr) as Hm.
  exists row. split; [exact Hr|]. unfold set2.
  rewrite norm_index_nonneg by lia. cbn [res_bind]. rewrite Hr.
  rewrite norm_index_nonneg by lia. reflexivity.
Qed.

Lemma has_shape_insert (t : ndarray2) (n m r c : nat) (row : ndarray1)
    (x : float64) :
  has_shape t n m -> t !! r = Some row ->
  has_shape (<[r := <[c := x]> row]> t) n m.
Proof.
  intros Hs Hr. pose proof (has_shape_row _ _ _ _ _ Hs Hr) as Hm.
  destruct Hs as [Hlen Hrows]. split.
  - rewrite length_insert. exact Hlen.
  - apply Forall_insert; [exact Hrows|]. rewrite length_insert. exact Hm.
Qed.

Lemma cell_insert_eq (t : ndarray2) (r c : nat) (row : ndarray1) (x : float64) :
  t !! r = Some row -> (c < length row)%nat ->
  cell (<[r := <[c := x]> row]> t) r c = Some x.
Proof.
  intros Hr Hc. unfold cell.
  rewrite list_lookup_insert_eq by (eapply lookup_lt_Some; exact Hr).
  apply list_lookup_insert_eq. exact Hc.
Qed.

Lemma cell_insert_ne (t : ndarray2) (r c r' c' : nat) (row : ndarray1)
    (x : float64) :
  t !! r = Some row -> (r', c') <> (r, c) ->
  cell (<[r := <[c := x]> row]> t) r' c' = cell t r' c'.
Proof.
  intros Hr Hne. unfold cell. destruct (decide (r = r')) as [<-|Hrr].
  - rewrite list_lookup_insert_eq by (eapply lookup_lt_Some; exact Hr).
    rewrite Hr. apply list_lookup_insert_ne. congruence.
  - rewrite list_lookup_insert_ne by exact Hrr. reflexivity.
Qed.

End NpFacts.

(** ** [np.max] and [np.argmax] *)
Section MaxFacts.
Import Np.

Lemma maximum_leb (a b : float64) :
  F64.is_nan a = false -> F64.leb b a = true -> maximum a b = a.
Proof. intros Ha H. unfold maximum. rewrite H. reflexivity. Qed.

Lemma maximum_not_leb (a b : float64) :
  F64.is_nan a = false -> F64.leb b a = false -> maximum a b = b.
Proof. intros Ha H. unfold maximum. rewrite H, Ha. reflexivity. Qed.

(** The invariant of the scan: after the entries [pre], [mp] is the
    entry at [best], no entry of [pre] exceeds it and every entry
    before [best] is below it. *)
Lemma argmax_scan_spec (xs pre : ndarray1) (mp : float64) (best : nat) :
  no_nan (pre ++ xs) ->
  pre !! best = Some mp ->
  (forall j y, pre !! j = Some y -> F64.leb y mp = true) ->
  (forall j y, (j < best)%nat -> pre !! j = Some y -> F64.ltb y mp = true) ->
  let k := argmax_scan xs (length pre) mp best in
  let m := fold_left maximum xs mp in
  (pre ++ xs) !! k = Some m /\
  (forall j y, (pre ++ xs) !! j = Some y -> F64.leb y m = true) /\
  (forall j y, (j < k)%nat -> (pre ++ xs) !! j = Some y -> F64.ltb y m = true).
Proof.
  revert pre mp best.
  induction xs as [|x xs IH]; intros pre mp best Hnan Hbest Hle Hlt; cbn zeta.
  - cbn [argmax_scan fold_left]. rewrite app_nil_r. auto.
  - assert (F64.is_nan x = false) as Hx.
    { unfold no_nan in Hnan. rewrite Forall_app, Forall_cons in Hnan. tauto. }
    assert (F64.is_nan mp = false) as Hmp.
    { unfold no_nan in Hnan. rewrite Forall_app, Forall_lookup in Hnan.
      destruct Hnan as [Hpre _]. exact (Hpre best mp Hbest). }
    assert (length (pre ++ [x]) = S (length pre)) as Hlen.
    { rewrite length_app. cbn. lia. }
    assert (pre ++ x :: xs = (pre ++ [x]) ++ xs) as Happ.
    { rewrite <- app_assoc. reflexivity. }
    cbn [argmax_scan fold_left]. rewrite Happ in *. rewrite <- Hlen.
    destruct (F64.leb x mp) eqn:Hxmp; cbn [negb].
    + rewrite maximum_leb by assumption.
      apply IH; [exact Hnan| | |].
      * apply lookup_app_l_Some. exact Hbest.
      * intros j y Hj. apply lookup_snoc_Some in Hj as [[_ Hj]|[_ <-]].
        -- exact (Hle j y Hj).
        -- exact Hxmp.
      * intros j y Hjb Hj. apply lookup_snoc_Some in Hj as [[_ Hj]|[Hj' _]].
        -- exact (Hlt j y Hjb Hj).
        -- apply lookup_lt_Some in Hbest. lia.
    + rewrite Hx. rewrite maximum_not_leb by assumption.
      pose proof (not_leb_ltb x mp Hx Hmp Hxmp) as Hmpx.
      apply IH; [exact Hnan| | |].
      * rewrite lookup_app_r by lia. rewrite Nat.sub_diag. reflexivity.
      * intros j y Hj. apply lookup_snoc_Some in Hj as [[_ Hj]|[_ <-]].
        -- apply ltb_leb. eapply leb_ltb_trans; [exact (Hle j y Hj)|exact Hmpx].
        -- apply leb_refl. exact Hx.
      * intros j y Hjb Hj. apply lookup_snoc_Some in Hj as [[_ Hj]|[Hj' _]].
        -- eapply leb_ltb_trans; [exact (Hle j y Hj)|exact Hmpx].
        -- lia.
Qed.

(** On a row of numbers [np.argmax] returns the least index of a
    greatest entry, and [np.max] that entry. *)
Lemma argmax_max_spec (row : ndarray1) :
  row <> [] -> no_nan row ->
  exists k m,
    argmax row = Ok k /\ Np.max row = Ok m /\ row !! k = Some m /\
    (forall j y, row !! j = Some y -> F64.leb y m = true) /\
    (forall j y, (j < k)%nat -> row !! j = Some y -> F64.ltb y m = true).
Proof.
  intros Hne Hnan. destruct row as [|x xs]; [congruence|].
  assert (F64.is_nan x = false) as Hx.
  { unfold no_nan in Hnan. rewrite Forall_cons in Hnan. tauto. }
  unfold argmax, Np.max. rewrite Hx.
  exists (argmax_scan xs 1 x 0), (fold_left maximum xs x).
  split; [reflexivity|]. split; [reflexivity|].
  apply (argmax_scan_spec xs [x] x 0%nat).
  - exact Hnan.
  - reflexivity.
  - intros [|j] y; cbn; [|discriminate]. intros [= <-]. apply leb_refl, Hx.
  - intros j y Hj. lia.
Qed.

Lemma argmax_lt_length (row : ndarray1) (k : nat) :
  argmax row = Ok k -> (k < length row)%nat.
Proof.
  destruct row as [|x xs]; [discriminate|]. unfold argmax. intros [= <-].
  destruct (F64.is_nan x); [cbn; lia|].
  enough (forall ys i mp best, (best < i)%nat ->
            (argmax_scan ys i mp best < i + length ys)%nat) as Hscan.
  { specialize (Hscan xs 1%nat x 0%nat). cbn in *. lia. }
  induction ys as [|y ys IH]; intros i mp best Hb; cbn [argmax_scan length].
  - lia.
  - destruct (negb (F64.leb y mp)); [destruct (F64.is_nan y)|].
    + lia.
    + specialize (IH (S i) y i). lia.
    + specialize (IH (S i) mp best). lia.
Qed.

Lemma max_ok (row : ndarray1) : row <> [] -> exists m, Np.max row = Ok m.
Proof. destruct row; [congruence|]. intros _. eexists. reflexivity. Qed.

End MaxFacts.

(** ** The agent's methods, unfolded *)
Section AgentFacts.
Context `{Generator G}.
Import Np QLearningAgent.

Lemma update_qtable_unfold (s s' a : Z) (r : float64) (ag : t G) :
  update_qtable s s' a r ag =
  match
    res_bind (get2 (qtable ag) s a) (fun old =>
    res_bind (get_row (qtable ag) s') (fun row =>
    res_bind (Np.max row) (fun m =>
    set2 (qtable ag) s a
      (td_value (learning_rate ag) (discount_factor ag) old r m))))
  with
  | Ok q' => (Ok tt, set_qtable q' ag)
  | Raise e => (Raise e, ag)
  end.
Proof.
  unfold update_qtable, mbind, M_bind, bind, gets, lift, modify.
  destruct (get2 (qtable ag) s a) as [old|]; cbn [res_bind]; [|reflexivity].
  destruct (get_row (qtable ag) s') as [row|]; cbn [res_bind]; [|reflexivity].
  destruct (Np.max row) as [m|]; cbn [res_bind]; [|reflexivity].
  destruct (set2 _ _ _ _); reflexivity.
Qed.

Lemma get_action_unfold (state : Z) (epsilon : float64) (ag : t G) :
  get_action state epsilon ag =
  let '(u, g1) := rng_uniform (rng ag) in
  if F64.ltb u epsilon then
    let '(r, g2) := rng_choice (actions ag) g1 in (r, set_rng g2 ag)
  else (greedy (qtable ag) state, set_rng g1 ag).
Proof.
  unfold get_action, mbind, M_bind, bind, gets, lift, with_rng.
  destruct (rng_uniform (rng ag)) as [u g1].
  destruct (F64.ltb u epsilon); [|reflexivity].
  cbn [rng set_rng actions]. destruct (rng_choice (actions ag) g1); reflexivity.
Qed.

(** What a call leaves alone. *)
Lemma update_qtable_frame (s s' a : Z) (r : float64) (ag : t G) :
  let ag' := (update_qtable s s' a r ag).2 in
  actions ag' = actions ag /\ learning_rate ag' = learning_rate ag /\
  discount_factor ag' = discount_factor ag /\ rng ag' = rng ag.
Proof.
  rewrite update_qtable_unfold. destruct (res_bind _ _); cbn; auto.
Qed.

Lemma get_action_frame (state : Z) (epsilon : float64) (ag : t G) :
  let ag' := (get_action state epsilon ag).2 in
  actions ag' = actions ag /\ qtable ag' = qtable ag /\
  learning_rate ag' = learning_rate ag /\
  discount_factor ag' = discount_factor ag.
Proof.
  rewrite get_action_unfold. destruct (rng_uniform (rng ag)) as [u g1].
  destruct (F64.ltb u epsilon); [destruct (rng_choice _ _)|]; cbn; auto.
Qed.

Lemma update_qtable_shape (s s' a : Z) (r : float64) (ag : t G) (n m : nat) :
  has_shape (qtable ag) n m ->
  has_shape (qtable (update_qtable s s' a r ag).2) n m.
Proof.
  intros Hs. rewrite update_qtable_unfold.
  destruct (get2 (qtable ag) s a) as [old|]; cbn [res_bind snd]; [|exact Hs].
  destruct (get_row (qtable ag) s') as [row|]; cbn [res_bind snd]; [|exact Hs].
  destruct (Np.max row) as [mx|]; cbn [res_bind snd]; [|exact Hs].
  destruct (set2 _ _ _ _) as [q'|] eqn:Hset; cbn [snd]; [|exact Hs].
  apply set2_inv in Hset as (r0 & c0 & row0 & _ & Hr0 & _ & ->).
  cbn [qtable set_qtable]. apply has_shape_insert; assumption.
Qed.

(** The invariant of an agent's life: actions, learning rate, discount
    factor and table shape are those of its construction. *)
Lemma do_calls_invariant (cs : list call) (ag : t G) (n m : nat) :
  has_shape (qtable ag) n m ->
  let ag' := do_calls cs ag in
  actions ag' = actions ag /\ learning_rate ag' = learning_rate ag /\
  discount_factor ag' = discount_factor ag /\ has_shape (qtable ag') n m.
Proof.
  revert ag. induction cs as [|c cs IH]; intros ag Hs; cbn zeta.
  - cbn. auto.
  - unfold do_calls. cbn [fold_left]. fold (do_calls cs (do_call ag c)).
    assert (actions (do_call ag c) = actions ag /\
            learning_rate (do_call ag c) = learning_rate ag /\
            discount_factor (do_call ag c) = discount_factor ag /\
            has_shape (qtable (do_call ag c)) n m) as (Ha & Hl & Hd & Hs').
    { destruct c as [st eps|s s' a r]; cbn [do_call].
      - destruct (get_action_frame st eps ag) as (? & Hq & ? & ?).
        rewrite Hq. auto.
      - destruct (update_qtable_frame s s' a r ag) as (? & ? & ? & _).
        pose proof (update_qtable_shape s s' a r ag n m Hs). auto. }
    destruct (IH _ Hs') as (Ha' & Hl' & Hd' & Hs'').
    split; [congruence|]. split; [congruence|]. split; [congruence|exact Hs''].
Qed.

Lemma init_inv (nstates : Z) (acts : list Z) (lr df : float64)
    (seed : option Z) (entropy : Z) (ag : t G) :
  __init__ nstates acts lr df seed entropy = Ok ag ->
  0 <= nstates /\ actions ag = acts /\ learning_rate ag = lr /\
  discount_factor ag = df /\ zeros nstates (length acts) = Ok (qtable ag) /\
  rng ag = default_rng (seed_or entropy seed).
Proof.
  unfold __init__. destruct (zeros nstates (length acts)) as [q|] eqn:Hz;
    cbn [res_bind]; [|discriminate].
  intros [= <-]. cbn. unfold zeros in Hz.
  destruct (Z.ltb_spec nstates 0); [discriminate|]. repeat split; auto.
Qed.

End AgentFacts.

(** ** The update rule *)
Section UpdateFacts.
Context `{Generator G}.
Import Np QLearningAgent.

(** On valid indices the update returns, and writes one entry. *)
Lemma update_qtable_ok (ag : t G) (n m : nat) (s s' a : Z) (r : float64) :
  has_shape (qtable ag) n m ->
  0 <= s < Z.of_nat n -> 0 <= s' < Z.of_nat n -> 0 <= a < Z.of_nat m ->
  exists old row row' mx,
    qtable ag !! Z.to_nat s = Some row /\
    row !! Z.to_nat a = Some old /\
    qtable ag !! Z.to_nat s' = Some row' /\
    Np.max row' = Ok mx /\
    update_qtable s s' a r ag =
      (Ok tt,
       set_qtable
         (<[Z.to_nat s :=
              <[Z.to_nat a :=
                  td_value (learning_rate ag) (discount_factor ag) old r mx]>
                row]> (qtable ag)) ag).
Proof.
  intros Hs Hi Hi' Hj. pose proof Hs as [Hlen _].
  destruct (get2_ok _ _ _ s a Hs Hi Hj) as (old & Hcell & Hget).
  destruct (get_row_ok (qtable ag) s') as (row' & Hr' & Hrow'); [lia|].
  pose proof (has_shape_row _ _ _ _ _ Hs Hr') as Hm'.
  destruct (max_ok row') as [mx Hmx].
  { intros ->. cbn in Hm'. lia. }
  destruct (set2_ok _ _ _ s a
              (td_value (learning_rate ag) (discount_factor ag) old r mx)
              Hs Hi Hj) as (row & Hr & Hset).
  exists old, row, row', mx. unfold cell in Hcell. rewrite Hr in Hcell.
  repeat (split; [assumption|]).
  rewrite update_qtable_unfold, Hget. cbn [res_bind].
  rewrite Hrow'. cbn [res_bind]. rewrite Hmx. cbn [res_bind].
  rewrite Hset. reflexivity.
Qed.

(** The entries of a row of numbers are below its [np.max], which is
    one of them. *)
Lemma max_greatest (row : ndarray1) (mx : float64) :
  Np.max row = Ok mx -> no_nan row ->
  mx ∈ row /\ forall y, y ∈ row -> F64.leb y mx = true.
Proof.
  intros Hmx Hnan. assert (row <> []) as Hne.
  { intros ->. discriminate. }
  destruct (argmax_max_spec row Hne Hnan) as (k & m' & _ & Hm' & Hk & Hle & _).
  assert (m' = mx) as -> by congruence. split.
  - eapply list_elem_of_lookup_2. exact Hk.
  - intros y Hy. apply list_elem_of_lookup_1 in Hy as [j Hj]. exact (Hle j y Hj).
Qed.

End UpdateFacts.

(** ** Claims about [update_qtable] *)
Section UpdateClaims.
Context `{Generator G}.
Import Np QLearningAgent.

(** C1. For an agent built by the constructor with learning rate [lr]
    and discount factor [df], after any sequence of calls, the call
    [update_qtable(s, s', a, r)] on valid indices returns [None] and
    replaces the entry [Q(s,a)] by [Q(s,a) + lr*(r + df*mx - Q(s,a))],
    where [mx] is [np.max] of the row of [s'] in the table before the
    call; on a row of numbers [mx] is an entry of the row that no
    entry exceeds. *)
Theorem update_qtable_td_rule (nstates : Z) (acts : list Z)
    (lr df : float64) (seed : option Z) (entropy : Z) (ag0 : t G)
    (cs : list call) (s s' a : Z) (r : float64) :
  __init__ nstates acts lr df seed entropy = Ok ag0 ->
  0 <= s < nstates -> 0 <= s' < nstates ->
  0 <= a < Z.of_nat (length acts) ->
  let ag := do_calls cs ag0 in
  exists (old mx : float64) (row' : ndarray1) (ag' : t G),
    cell (qtable ag) (Z.to_nat s) (Z.to_nat a) = Some old /\
    qtable ag !! Z.to_nat s' = Some row' /\
    Np.max row' = Ok mx /\
    (no_nan row' -> mx ∈ row' /\ forall y, y ∈ row' -> F64.leb y mx = true) /\
    update_qtable s s' a r ag = (Ok tt, ag') /\
    cell (qtable ag') (Z.to_nat s) (Z.to_nat a) =
      Some (F64.add old
              (F64.mul lr (F64.sub (F64.add r (F64.mul df mx)) old))).
Proof.
  intros Hinit Hs Hs' Ha ag.
  apply init_inv in Hinit as (Hn & Hacts & Hlr & Hdf & Hz & _).
  apply has_shape_zeros in Hz.
  destruct (do_calls_invariant cs ag0 _ _ Hz) as (_ & Hlr' & Hdf' & Hshape).
  fold ag in Hlr', Hdf', Hshape.
  destruct (update_qtable_ok ag _ _ s s' a r Hshape) as
    (old & row & row' & mx & Hrow & Hold & Hrow' & Hmx & Hupd); [lia..|].
  exists old, mx, row', (set_qtable
    (<[Z.to_nat s := <[Z.to_nat a :=
        td_value (learning_rate ag) (discount_factor ag) old r mx]> row]>
      (qtable ag)) ag).
  split; [unfold cell; rewrite Hrow; exact Hold|].
  split; [exact Hrow'|]. split; [exact Hmx|].
  split; [intros Hnan; exact (max_greatest row' mx Hmx Hnan)|].
  split; [exact Hupd|].
  cbn [qtable set_qtable]. rewrite cell_insert_eq.
  - unfold td_value. rewrite Hlr', Hdf', Hlr, Hdf. reflexivity.
  - exact Hrow.
  - eapply lookup_lt_Some. exact Hold.
Qed.

(** C6. The constructor builds a table of [nstates] rows and
    [len(actions)] columns whose entries are all zero, and after any
    sequence of [get_action] and [update_qtable] calls, returning or
    raising, the table still has these dimensions. *)
Theorem qtable_shape_invariant (nstates : Z) (acts : list Z)
    (lr df : float64) (seed : option Z) (entropy : Z) (ag0 : t G) :
  __init__ nstates acts lr df seed entropy = Ok ag0 ->
  has_shape (qtable ag0) (Z.to_nat nstates) (length acts) /\
  (forall r c, (r < Z.to_nat nstates)%nat -> (c < length acts)%nat ->
     cell (qtable ag0) r c = Some F64.zero) /\
  (forall cs : list call,
     has_shape (qtable (do_calls cs ag0)) (Z.to_nat nstates) (length acts)).
Proof.
  intros Hinit. apply init_inv in Hinit as (Hn & _ & _ & _ & Hz & _).
  pose proof (has_shape_zeros _ _ _ Hz) as Hshape.
  split; [exact Hshape|]. split.
  - intros r c Hr Hc. destruct Hshape as [Hlen Hrows].
    destruct (lookup_lt_is_Some_2 (qtable ag0) r) as [row Hrow]; [lia|].
    assert (length row = length acts) as Hm.
    { rewrite Forall_lookup in Hrows. exact (Hrows r row Hrow). }
    destruct (lookup_lt_is_Some_2 row c) as [x Hx]; [lia|].
    assert (cell (qtable ag0) r c = Some x) as Hcell.
    { unfold cell. rewrite Hrow. exact Hx. }
    rewrite Hcell. f_equal. exact (cell_zeros _ _ _ _ _ _ Hz Hcell).
  - intros cs. apply (do_calls_invariant cs ag0 _ _ Hshape).
Qed.

(** C7. On valid indices [update_qtable(s, s', a, r)] changes no
    entry of the table other than the one at [(s, a)], and leaves the
    learning rate, the discount factor, the actions, the generator
    and the dimensions of the table as they were. *)
Theorem update_qtable_single_cell (ag : t G) (n m : nat) (s s' a : Z)
    (r : float64) :
  has_shape (qtable ag) n m ->
  0 <= s < Z.of_nat n -> 0 <= s' < Z.of_nat n -> 0 <= a < Z.of_nat m ->
  let ag' := (update_qtable s s' a r ag).2 in
  (forall r0 c0, (r0, c0) <> (Z.to_nat s, Z.to_nat a) ->
     cell (qtable ag') r0 c0 = cell (qtable ag) r0 c0) /\
  learning_rate ag' = learning_rate ag /\
  discount_factor ag' = discount_factor ag /\
  actions ag' = actions ag /\ rng ag' = rng ag /\
  has_shape (qtable ag') n m.
Proof.
  intros Hshape Hs Hs' Ha ag'.
  destruct (update_qtable_frame s s' a r ag) as (Hact & Hlr & Hdf & Hrng).
  pose proof (update_qtable_shape s s' a r ag n m Hshape) as Hshape'.
  fold ag' in Hact, Hlr, Hdf, Hrng, Hshape'.
  repeat (split; [|assumption || tauto]).
  intros r0 c0 Hne. subst ag'.
  destruct (update_qtable_ok ag n m s s' a r Hshape Hs Hs' Ha) as
    (old & row & row' & mx & Hrow & _ & _ & _ & ->).
  cbn [snd qtable set_qtable]. apply cell_insert_ne; assumption.
Qed.

(** C9, as the code has it.  When the learning rate and [Q(s,a)] are
    finite and the value [r + df*mx] that the code computes equals
    [Q(s,a)], the update writes to [(s, a)] a value equal to the one
    it held and changes no other entry; the agent is left identical
    unless [Q(s,a)] is the negative zero, which may become the
    positive one. *)
Theorem update_qtable_fixed_point (ag : t G) (n m : nat) (s s' a : Z)
    (r old mx : float64) (row' : ndarray1) :
  has_shape (qtable ag) n m ->
  0 <= s < Z.of_nat n -> 0 <= s' < Z.of_nat n -> 0 <= a < Z.of_nat m ->
  cell (qtable ag) (Z.to_nat s) (Z.to_nat a) = Some old ->
  qtable ag !! Z.to_nat s' = Some row' ->
  Np.max row' = Ok mx ->
  F64.is_finite (learning_rate ag) = true ->
  F64.is_finite old = true ->
  F64.eqb (F64.add r (F64.mul (discount_factor ag) mx)) old = true ->
  exists (new : float64) (ag' : t G),
    update_qtable s s' a r ag = (Ok tt, ag') /\
    cell (qtable ag') (Z.to_nat s) (Z.to_nat a) = Some new /\
    F64.eqb new old = true /\
    (forall r0 c0, (r0, c0) <> (Z.to_nat s, Z.to_nat a) ->
       cell (qtable ag') r0 c0 = cell (qtable ag) r0 c0) /\
    (old <> S754_zero true -> ag' = ag).
Proof.
  intros Hshape Hs Hs' Ha Hold Hrow' Hmx Hlr Hfin Heq.
  destruct (update_qtable_ok ag n m s s' a r Hshape Hs Hs' Ha) as
    (old0 & row & row0 & mx0 & Hrow & Hold0 & Hrow0 & Hmx0 & Hupd).
  assert (old0 = old) as ->.
  { unfold cell in Hold. rewrite Hrow in Hold. congruence. }
  assert (mx0 = mx) as -> by congruence.
  destruct (sub_eqb_zero _ _ Hfin Heq) as [s1 Hsub].
  destruct (mul_finite_zero (learning_rate ag) s1 Hlr) as [s2 Hmul].
  destruct (add_zero_finite old s2 Hfin) as [Hnew Hsame].
  assert (td_value (learning_rate ag) (discount_factor ag) old r mx =
          F64.add old (S754_zero s2)) as Htd.
  { unfold td_value. rewrite Hsub, Hmul. reflexivity. }
  rewrite Htd in Hupd.
  eexists _, _. split; [exact Hupd|]. cbn [qtable set_qtable].
  split; [apply cell_insert_eq;
          [exact Hrow | eapply lookup_lt_Some; exact Hold0]|].
  split; [exact Hnew|].
  split; [intros r0 c0 Hne; apply cell_insert_ne; assumption|].
  intros Hnz. rewrite (Hsame Hnz).
  rewrite (list_insert_id row _ _ Hold0), (list_insert_id _ _ _ Hrow).
  destruct ag; reflexivity.
Qed.

End UpdateClaims.

(** ** Action selection *)
Section GetActionFacts.
Context `{Generator G}.
Import Np QLearningAgent.

Lemma length_arange (n : Z) : length (arange n) = Z.to_nat n.
Proof. unfold arange. rewrite length_fmap. apply length_seq. Qed.

Lemma lookup_arange (n : Z) (i : nat) :
  (i < Z.to_nat n)%nat -> arange n !! i = Some (Z.of_nat i).
Proof.
  intros Hi. unfold arange. rewrite list_lookup_fmap.
  rewrite lookup_seq_lt by exact Hi. reflexivity.
Qed.

Lemma rng_choice_ok (acts : list Z) (g : G) :
  acts <> [] ->
  exists x, acts !! (rng_integers (length acts) g).1 = Some x /\
    rng_choice acts g = (Ok x, (rng_integers (length acts) g).2).
Proof.
  intros Hne. destruct acts as [|a0 acts']; [congruence|].
  set (acts := a0 :: acts') in *.
  pose proof (rng_integers_range (length acts) g) as Hi.
  destruct (lookup_lt_is_Some_2 acts (rng_integers (length acts) g).1)
    as [x Hx].
  { apply Hi. cbn. lia. }
  exists x. split; [exact Hx|]. unfold rng_choice. subst acts.
  cbv zeta. destruct (rng_integers _ g) as [i g']. cbn [fst snd] in *.
  rewrite Hx. reflexivity.
Qed.

Lemma greedy_ok (q : ndarray2) (n m : nat) (state : Z) :
  has_shape q n m -> 0 <= state < Z.of_nat n -> (0 < m)%nat ->
  exists row k, q !! Z.to_nat state = Some row /\ length row = m /\
    argmax row = Ok k /\ (k < m)%nat /\ greedy q state = Ok (Z.of_nat k).
Proof.
  intros Hs Hi Hm. pose proof Hs as [Hlen _].
  destruct (get_row_ok q state) as (row & Hr & Hrow); [lia|].
  pose proof (has_shape_row _ _ _ _ _ Hs Hr) as Hlr.
  destruct row as [|x xs] eqn:Erow; [cbn in Hlr; lia|]. rewrite <- Erow in *.
  assert (exists k, argmax row = Ok k) as [k Hk].
  { rewrite Erow. eexists. reflexivity. }
  pose proof (argmax_lt_length row k Hk) as Hlt.
  exists row, k. unfold greedy. rewrite Hrow. cbn [res_bind].
  rewrite Hk. cbn [res_bind]. repeat split; auto. lia.
Qed.

(** A uniform draw is never below zero. *)
Lemma uniform_not_below_zero (g : G) :
  F64.ltb (rng_uniform g).1 F64.zero = false.
Proof.
  destruct (rng_uniform_range g) as [Hle _].
  destruct (F64.ltb (rng_uniform g).1 F64.zero) eqn:Hlt; [|reflexivity].
  apply ltb_irrefl_leb in Hlt. congruence.
Qed.

(** The two branches of [get_action] on a valid state. *)
Lemma get_action_cases (ag : t G) (n m : nat) (state : Z) (epsilon : float64) :
  has_shape (qtable ag) n m -> 0 <= state < Z.of_nat n -> (0 < m)%nat ->
  actions ag <> [] ->
  let u := (rng_uniform (rng ag)).1 in
  let g1 := (rng_uniform (rng ag)).2 in
  let i := (rng_integers (length (actions ag)) g1).1 in
  let g2 := (rng_integers (length (actions ag)) g1).2 in
  exists row k x,
    qtable ag !! Z.to_nat state = Some row /\ length row = m /\
    argmax row = Ok k /\ (k < m)%nat /\
    actions ag !! i = Some x /\
    get_action state epsilon ag =
      if F64.ltb u epsilon then (Ok x, set_rng g2 ag)
      else (Ok (Z.of_nat k), set_rng g1 ag).
Proof.
  intros Hs Hi Hm Hne u g1 i g2.
  destruct (greedy_ok _ _ _ state Hs Hi Hm) as (row & k & Hr & Hlen & Hk & Hlt & Hg).
  destruct (rng_choice_ok (actions ag) g1 Hne) as (x & Hx & Hc).
  exists row, k, x. repeat (split; [assumption|]).
  rewrite get_action_unfold. subst u g1 i g2.
  destruct (rng_uniform (rng ag)) as [u g1]. cbn [fst snd] in *.
  destruct (F64.ltb u epsilon); [|rewrite Hg; reflexivity].
  rewrite Hc. reflexivity.
Qed.

End GetActionFacts.

(** ** Claims about [get_action] *)
Section GetActionClaims.
Context `{Generator G}.
Import Np QLearningAgent.

(** C3. On a valid state [get_action(state, epsilon)] draws [u] with
    [uniform(0, 1)].  When [u < epsilon], an event of probability
    [epsilon] under the generator's uniform law, it returns the entry
    of the action array at the index the generator draws among its
    [len(actions)] positions.  Otherwise it returns [np.argmax] of
    the row of the state, which on a row of numbers is the index of
    a greatest entry with every earlier entry strictly smaller.  With
    [epsilon = 0] the second case always applies. *)
Theorem get_action_epsilon_greedy (ag : t G) (n m : nat) (state : Z)
    (epsilon : float64) :
  has_shape (qtable ag) n m -> 0 <= state < Z.of_nat n -> (0 < m)%nat ->
  actions ag <> [] ->
  let u := (rng_uniform (rng ag)).1 in
  let g1 := (rng_uniform (rng ag)).2 in
  let i := (rng_integers (length (actions ag)) g1).1 in
  let g2 := (rng_integers (length (actions ag)) g1).2 in
  exists (row : ndarray1) (k : nat),
    qtable ag !! Z.to_nat state = Some row /\
    (no_nan row ->
       exists mx, row !! k = Some mx /\
         (forall j y, row !! j = Some y -> F64.leb y mx = true) /\
         (forall j y, (j < k)%nat -> row !! j = Some y -> F64.ltb y mx = true)) /\
    (F64.ltb u epsilon = true ->
       exists x, actions ag !! i = Some x /\ (i < length (actions ag))%nat /\
         get_action state epsilon ag = (Ok x, set_rng g2 ag)) /\
    (F64.ltb u epsilon = false ->
       get_action state epsilon ag = (Ok (Z.of_nat k), set_rng g1 ag)) /\
    get_action state F64.zero ag = (Ok (Z.of_nat k), set_rng g1 ag).
Proof.
  intros Hs Hi Hm Hne u g1 i g2.
  destruct (get_action_cases ag n m state epsilon Hs Hi Hm Hne) as
    (row & k & x & Hrow & Hlen & Hk & Hlt & Hx & Hget).
  destruct (get_action_cases ag n m state F64.zero Hs Hi Hm Hne) as
    (row0 & k0 & x0 & Hrow0 & _ & Hk0 & _ & _ & Hget0).
  assert (row0 = row) as -> by congruence.
  assert (k0 = k) as -> by congruence.
  fold u g1 i g2 in Hx, Hget, Hget0.
  exists row, k. split; [exact Hrow|]. split; [|split; [|split]].
  - intros Hnan. assert (row <> []) as Hrne.
    { intros ->. cbn in Hlen. lia. }
    destruct (argmax_max_spec row Hrne Hnan) as (k' & mx & Hk' & _ & Hmx & Hle & Hlow).
    assert (k' = k) as -> by congruence. exists mx. auto.
  - intros Hu. rewrite Hu in Hget. exists x.
    split; [exact Hx|]. split; [eapply lookup_lt_Some; exact Hx|exact Hget].
  - intros Hu. rewrite Hu in Hget. exact Hget.
  - subst u. rewrite uniform_not_below_zero in Hget0. exact Hget0.
Qed.

(** C8. A call of [get_action], whatever its arguments and whether it
    returns or raises, leaves the table, the learning rate, the
    discount factor and the actions as they were.  It draws from the
    generator with [uniform] first, so the generator it leaves is the
    one after that draw, or after the further draw of [choice] when
    the exploration branch is taken; with [epsilon = 0] it is the
    generator after the uniform draw. *)
Theorem get_action_only_advances_rng (ag : t G) (state : Z) (epsilon : float64) :
  let ag' := (get_action state epsilon ag).2 in
  let u := (rng_uniform (rng ag)).1 in
  let g1 := (rng_uniform (rng ag)).2 in
  qtable ag' = qtable ag /\
  learning_rate ag' = learning_rate ag /\
  discount_factor ag' = discount_factor ag /\
  actions ag' = actions ag /\
  (F64.ltb u epsilon = false -> rng ag' = g1) /\
  (F64.ltb u epsilon = true -> actions ag <> [] ->
     rng ag' = (rng_integers (length (actions ag)) g1).2) /\
  (F64.ltb u epsilon = true -> actions ag = [] -> rng ag' = g1) /\
  rng (get_action state F64.zero ag).2 = g1.
Proof.
  intros ag' u g1.
  destruct (get_action_frame state epsilon ag) as (Ha & Hq & Hl & Hd).
  fold ag' in Ha, Hq, Hl, Hd. repeat (split; [assumption|]).
  subst ag' u g1. rewrite !get_action_unfold.
  pose proof (uniform_not_below_zero (rng ag)) as H0.
  destruct (rng_uniform (rng ag)) as [u g1]. cbn [fst snd] in *.
  rewrite H0. split; [|split; [|split]].
  - intros ->. reflexivity.
  - intros -> Hne. destruct (rng_choice_ok (actions ag) g1 Hne) as (x & _ & ->).
    reflexivity.
  - intros -> ->. reflexivity.
  - reflexivity.
Qed.

(** C10. An agent built with [actions = arange(n)], [n >= 1], returns
    from [get_action] on a valid state, after any sequence of calls,
    an integer [a] with [0 <= a < n]: in the exploration branch the
    entry of [arange(n)] at the drawn index, which is that index, and
    in the exploitation branch the index returned by [np.argmax]. *)
Theorem get_action_in_range (nstates n : Z) (lr df : float64)
    (seed : option Z) (entropy : Z) (ag0 : t G) (cs : list call)
    (state : Z) (epsilon : float64) :
  __init__ nstates (arange n) lr df seed entropy = Ok ag0 ->
  1 <= n -> 0 <= state < nstates ->
  let ag := do_calls cs ag0 in
  let u := (rng_uniform (rng ag)).1 in
  let i := (rng_integers (Z.to_nat n) (rng_uniform (rng ag)).2).1 in
  exists a : Z,
    (get_action state epsilon ag).1 = Ok a /\ 0 <= a < n /\
    (F64.ltb u epsilon = true -> arange n !! i = Some a /\ a = Z.of_nat i) /\
    (F64.ltb u epsilon = false ->
       exists row k, qtable ag !! Z.to_nat state = Some row /\
         argmax row = Ok k /\ a = Z.of_nat k).
Proof.
  intros Hinit Hn Hstate ag u i.
  apply init_inv in Hinit as (Hns & Hacts & _ & _ & Hz & _).
  apply has_shape_zeros in Hz. rewrite length_arange in Hz.
  destruct (do_calls_invariant cs ag0 _ _ Hz) as (Hacts' & _ & _ & Hshape).
  fold ag in Hacts', Hshape.
  assert (actions ag = arange n) as Ha by congruence.
  assert (actions ag <> []) as Hne.
  { rewrite Ha. intros Hnil. apply (f_equal length) in Hnil.
    rewrite length_arange in Hnil. cbn in Hnil. lia. }
  destruct (get_action_cases ag _ _ state epsilon Hshape) as
    (row & k & x & Hrow & _ & Hk & Hlt & Hx & Hget); [lia|lia|exact Hne|].
  rewrite Ha, length_arange in Hx, Hget. fold u i in Hx, Hget.
  assert (i < Z.to_nat n)%nat as Hi.
  { apply lookup_lt_Some in Hx. rewrite length_arange in Hx. exact Hx. }
  rewrite lookup_arange in Hx by exact Hi. injection Hx as <-.
  rewrite Hget. destruct (F64.ltb u epsilon); cbn [fst].
  - exists (Z.of_nat i). split; [reflexivity|]. split; [lia|]. split.
    + intros _. split; [apply lookup_arange; exact Hi | reflexivity].
    + discriminate.
  - exists (Z.of_nat k). split; [reflexivity|]. split; [lia|]. split.
    + discriminate.
    + intros _. exists row, k. auto.
Qed.

End GetActionClaims.

(** ** The loops *)
Section LoopFacts.
Context {W L : Type}.
Variable body : L -> M W (L * bool).

(** A loop whose [k+1]-th iteration is the first to report [done]
    finishes, with the state that iteration leaves, under any bound
    above [k]. *)
Lemma while_finishes (k fuel : nat) (l l1 l2 : L) (w w1 w2 : W) :
  iterates body k l w l1 w1 ->
  body l1 w1 = (Ok (l2, true), w2) ->
  (k < fuel)%nat ->
  while_not_done body fuel l w = (Finished l2, w2).
Proof.
  intros Hit. revert fuel. induction Hit as [l w|k l l1 l3 w w1 w3 Hb _ IH];
    intros fuel Hlast Hk; (destruct fuel as [|fuel]; [lia|]);
    cbn [while_not_done].
  - rewrite Hlast. reflexivity.
  - rewrite Hb. apply IH; [exact Hlast|lia].
Qed.

(** A loop that finishes does so at the first iteration that reports
    [done]. *)
Lemma while_finished_inv (fuel : nat) (l l2 : L) (w w2 : W) :
  while_not_done body fuel l w = (Finished l2, w2) ->
  exists k l1 w1, (k < fuel)%nat /\ iterates body k l w l1 w1 /\
    body l1 w1 = (Ok (l2, true), w2).
Proof.
  revert l w. induction fuel as [|fuel IH]; intros l w; cbn [while_not_done].
  - discriminate.
  - destruct (body l w) as [[[l' [|]]|e] w'] eqn:Hb.
    + intros [= <- <-]. exists O, l, w. split; [lia|]. split; [constructor|exact Hb].
    + intros Hrun. destruct (IH _ _ Hrun) as (k & l1 & w1 & Hk & Hit & Hlast).
      exists (S k), l1, w1. split; [lia|]. split; [|exact Hlast].
      econstructor; [exact Hb|exact Hit].
    + discriminate.
Qed.

End LoopFacts.

(** ** Claims about the training loop *)
Section TrainClaims.
Context `{Generator G} `{Env E}.
Import Np QLearningAgent.

(** C2. In an iteration of the training loop [update_qtable] is
    called with the transition that [step] returned, whatever the
    value of [done], the terminal step included: the entry at
    [(state, action)] becomes [old + lr*(r + df*mx - old)] where [mx]
    is [np.max] of the row of the state [step] returned, on a row of
    numbers an entry of that row that no entry exceeds; [done] only
    decides whether the loop goes on. *)
Theorem train_body_updates_whatever_done (ag ag1 : t G) (e e1 : E)
    (n m : nat) (epsilon : float64) (state action next_state : Z)
    (reward : float64) (done : bool) :
  has_shape (qtable ag) n m ->
  get_action state epsilon ag = (Ok action, ag1) ->
  env_step action e = (Ok (next_state, reward, done), e1) ->
  0 <= state < Z.of_nat n -> 0 <= next_state < Z.of_nat n ->
  0 <= action < Z.of_nat m ->
  exists (old mx : float64) (row' : ndarray1) (ag2 : t G),
    cell (qtable ag1) (Z.to_nat state) (Z.to_nat action) = Some old /\
    qtable ag1 !! Z.to_nat next_state = Some row' /\
    Np.max row' = Ok mx /\
    (no_nan row' -> mx ∈ row' /\ forall y, y ∈ row' -> F64.leb y mx = true) /\
    update_qtable state next_state action reward ag1 = (Ok tt, ag2) /\
    train_body epsilon state (ag, e) = (Ok (next_state, done), (ag2, e1)) /\
    cell (qtable ag2) (Z.to_nat state) (Z.to_nat action) =
      Some (F64.add old
              (F64.mul (learning_rate ag)
                 (F64.sub (F64.add reward (F64.mul (discount_factor ag) mx))
                    old))).
Proof.
  intros Hshape Hget Hstep Hs Hs' Ha.
  destruct (get_action_frame state epsilon ag) as (_ & Hq & Hlr & Hdf).
  rewrite Hget in Hq, Hlr, Hdf. cbn [snd] in Hq, Hlr, Hdf.
  assert (has_shape (qtable ag1) n m) as Hshape1 by (rewrite Hq; exact Hshape).
  destruct (update_qtable_ok ag1 n m state next_state action reward
              Hshape1 Hs Hs' Ha) as
    (old & row & row' & mx & Hrow & Hold & Hrow' & Hmx & Hupd).
  eexists old, mx, row', _.
  split; [unfold cell; rewrite Hrow; exact Hold|].
  split; [exact Hrow'|]. split; [exact Hmx|].
  split; [exact (max_greatest row' mx Hmx)|]. split; [exact Hupd|]. split.
  - unfold train_body, mbind, M_bind, bind, on_agent, on_env. cbn [fst snd].
    rewrite Hget. cbn [fst snd]. rewrite Hstep. cbn [fst snd].
    rewrite Hupd. reflexivity.
  - cbn [qtable set_qtable]. rewrite cell_insert_eq.
    + unfold td_value. rewrite Hlr, Hdf. reflexivity.
    + exact Hrow.
    + eapply lookup_lt_Some. exact Hold.
Qed.

End TrainClaims.

(** ** The environment *)
Section EnvClaims.
Context `{Generator G}.
Import GridEnv.

Lemma step_agree (a : Z) (e1 e2 : GridEnv.t G) :
  agree e1 e2 ->
  (step a e1).1 = (step a e2).1 /\ agree (step a e1).2 (step a e2).2.
Proof.
  destruct e1 as [l1 p1 g1 en1 r1], e2 as [l2 p2 g2 en2 r2].
  unfold agree. cbn [layout pos rng]. intros (-> & -> & ->).
  unfold step, set_pos_rng. cbn [layout pos rng entropy resets].
  repeat case_match; cbn [fst snd layout pos rng]; auto.
Qed.

Lemma step_layout (a : Z) (e : GridEnv.t G) : layout (step a e).2 = layout e.
Proof.
  unfold step, set_pos_rng. repeat case_match; reflexivity.
Qed.

Lemma run_actions_agree (acts : list Z) (e1 e2 : GridEnv.t G) :
  agree e1 e2 -> (run_actions acts e1).1 = (run_actions acts e2).1.
Proof.
  revert e1 e2. induction acts as [|a acts IH]; intros e1 e2 Hag;
    cbn [run_actions]; [reflexivity|].
  destruct (step_agree a e1 e2 Hag) as [Hres Hag'].
  destruct (step a e1) as [[o1|x1] e1'], (step a e2) as [[o2|x2] e2'];
    cbn [fst snd] in *; try discriminate.
  - specialize (IH e1' e2' Hag').
    destruct (run_actions acts e1'), (run_actions acts e2'). cbn [fst] in *.
    congruence.
  - congruence.
Qed.

Lemma run_actions_layout (acts : list Z) (e : GridEnv.t G) :
  layout (run_actions acts e).2 = layout e.
Proof.
  revert e. induction acts as [|a acts IH]; intros e; cbn [run_actions];
    [reflexivity|].
  pose proof (step_layout a e) as Hl.
  destruct (step a e) as [[o|x] e']; cbn [snd] in *; [|exact Hl].
  specialize (IH e'). destruct (run_actions acts e'). cbn [snd] in *. congruence.
Qed.

Lemma reset_agree (seed : Z) (e1 e2 : GridEnv.t G) :
  layout e1 = layout e2 ->
  (reset (Some seed) e1).1 = (reset (Some seed) e2).1 /\
  (is_ok (reset (Some seed) e1).1 = true ->
   agree (reset (Some seed) e1).2 (reset (Some seed) e2).2).
Proof.
  intros Hl. unfold reset. rewrite <- Hl.
  destruct (seed <? 0); [cbn; split; [reflexivity|discriminate]|].
  destruct (start_coord (layout e1)); cbn; [|split; [reflexivity|discriminate]].
  split; [reflexivity|]. intros _. unfold agree. cbn. auto.
Qed.

Lemma reset_layout (seed : option Z) (e : GridEnv.t G) :
  layout (reset seed e).2 = layout e.
Proof. unfold reset. repeat case_match; reflexivity. Qed.

Lemma run_layout (seed : Z) (acts : list Z) (e : GridEnv.t G) :
  layout (run seed acts e).2 = layout e.
Proof.
  unfold run. pose proof (reset_layout (Some seed) e) as Hl.
  destruct (reset (Some seed) e) as [[s0|x] e']; cbn [snd] in *; [|exact Hl].
  pose proof (run_actions_layout acts e') as Hl'.
  destruct (run_actions acts e'). cbn [snd] in *. congruence.
Qed.

(** C4. Two runs of an environment with the same layout, whatever
    state, generator and entropy each starts from, that call
    [reset(seed)] with the same seed and then [step] with the same
    actions return the same initial state and the same
    (state, reward, done) trace; in particular a run repeated on the
    environment that an earlier run left. *)
Theorem reset_seed_deterministic (seed : Z) (acts : list Z)
    (e1 e2 : GridEnv.t G) :
  layout e1 = layout e2 ->
  (run seed acts e1).1 = (run seed acts e2).1 /\
  (run seed acts (run seed acts e1).2).1 = (run seed acts e1).1.
Proof.
  assert (forall e e' : GridEnv.t G, layout e = layout e' ->
            (run seed acts e).1 = (run seed acts e').1) as Hdet.
  { intros e e' Hl. unfold run.
    destruct (reset_agree seed e e' Hl) as [Hres Hag].
    destruct (reset (Some seed) e) as [[s0|x] e0],
             (reset (Some seed) e') as [[s0'|x'] e0'];
      cbn [fst snd is_ok] in *; try discriminate.
    - pose proof (run_actions_agree acts e0 e0' (Hag eq_refl)) as Htr.
      destruct (run_actions acts e0), (run_actions acts e0').
      cbn [fst] in *. congruence.
    - congruence. }
  intros Hl. split; [exact (Hdet e1 e2 Hl)|].
  apply Hdet. apply run_layout.
Qed.

End EnvClaims.

(** ** Episodes *)
Section EpisodeFacts.
Context `{Generator G} `{Env E}.
Import QLearningAgent.






End EpisodeFacts.

Section EpisodeClaims.
Context `{Generator G} `{Env E}.
Import QLearningAgent.


End EpisodeClaims.

(** ** The theorems on the example agents and environments *)
Section Witnesses.
Import Np QLearningAgent Examples Ex.

Lemma agent1_shape : has_shape (qtable agent1) 5 4.
Proof. split; [reflexivity|]. repeat constructor. Defined.

(** C1 on the agent built as in the notebook, after two updates:
    [update_qtable(1, 0, 2, -1)]. *)
Lemma update_qtable_td_rule_witness :
  __init__ 5 (arange 4) f0_5 f0_99 (Some 5) 0 = Ok agent0 /\
  exists (old mx : float64) (row' : ndarray1) (ag' : t Z),
    cell (qtable (do_calls history agent0)) (Z.to_nat 1) (Z.to_nat 2) = Some old /\
    qtable (do_calls history agent0) !! Z.to_nat 0 = Some row' /\
    Np.max row' = Ok mx /\
    (no_nan row' -> mx ∈ row' /\ forall y, y ∈ row' -> F64.leb y mx = true) /\
    update_qtable 1 0 2 minus_one (do_calls history agent0) = (Ok tt, ag') /\
    cell (qtable ag') (Z.to_nat 1) (Z.to_nat 2) =
      Some (F64.add old
              (F64.mul f0_5 (F64.sub (F64.add minus_one (F64.mul f0_99 mx)) old))).
Proof.
  split; [reflexivity|].
  apply (update_qtable_td_rule 5 (arange 4) f0_5 f0_99 (Some 5) 0 agent0
           history 1 0 2 minus_one);
    [reflexivity|lia|lia|change (length (arange 4)) with 4%nat; lia].
Defined.

(** C2 on the step from the free cell into the construction area,
    which ends the episode: the row of the state returned has maximum
    [Q(0,3) = 5], and the entry written is
    [0 + 0.5*(-10 + 0.99*5 - 0) = -2.525]; a bootstrap term set to
    zero would give [-5]. *)
Lemma train_body_updates_whatever_done_witness :
  get_action 1 F64.zero agent1 = (Ok 1, set_rng 8642 agent1) /\
  GridEnv.step 1 office_env_at_1 =
    (Ok (0, F64.of_Z (-10), true),
     GridEnv.set_pos_rng (0, 0)%nat 11 office_env_at_1) /\
  (train_body F64.zero 1 (agent1, office_env_at_1)).1 = Ok (0, true) /\
  cell (qtable (train_body F64.zero 1 (agent1, office_env_at_1)).2.1)
      (Z.to_nat 1) (Z.to_nat 1) =
    Some (F64.lit (-2525) 1000) /\
  F64.add F64.zero
      (F64.mul f0_5
         (F64.sub (F64.add (F64.of_Z (-10)) (F64.mul f0_99 F64.zero))
            F64.zero)) =
    F64.of_Z (-5) /\
  exists (old mx : float64) (row' : ndarray1) (ag2 : t Z),
    old = F64.zero /\ mx = F64.of_Z 5 /\
    cell (qtable (set_rng 8642 agent1)) (Z.to_nat 1) (Z.to_nat 1) = Some old /\
    qtable (set_rng 8642 agent1) !! Z.to_nat 0 = Some row' /\
    Np.max row' = Ok mx /\
    (no_nan row' -> mx ∈ row' /\ forall y, y ∈ row' -> F64.leb y mx = true) /\
    update_qtable 1 0 1 (F64.of_Z (-10)) (set_rng 8642 agent1) = (Ok tt, ag2) /\
    train_body F64.zero 1 (agent1, office_env_at_1) =
      (Ok (0, true), (ag2, GridEnv.set_pos_rng (0, 0)%nat 11 office_env_at_1)) /\
    cell (qtable ag2) (Z.to_nat 1) (Z.to_nat 1) =
      Some (F64.add old
              (F64.mul (learning_rate agent1)
                 (F64.sub
                    (F64.add (F64.of_Z (-10))
                       (F64.mul (discount_factor agent1) mx)) old))).
Proof.
  split; [reflexivity|]. split; [reflexivity|].
  split; [vm_compute; reflexivity|]. split; [vm_compute; reflexivity|].
  split; [vm_compute; reflexivity|].
  destruct (train_body_updates_whatever_done (E := GridEnv.t Z)
              agent1 (set_rng 8642 agent1) office_env_at_1
              (GridEnv.set_pos_rng (0, 0)%nat 11 office_env_at_1)
              5 4 F64.zero 1 1 0 (F64.of_Z (-10)) true)
    as (old & mx & row' & ag2 & Hold & Hrow & Hmx & Hgr & Hupd & Hbody & Hcell);
    [exact agent1_shape|reflexivity|reflexivity|lia|lia|lia|].
  exists old, mx, row', ag2.
  split.
  { pose proof Hold as Hold'. vm_compute in Hold'.
    injection Hold' as <-. reflexivity. }
  split.
  { pose proof Hrow as Hrow'. vm_compute in Hrow'. injection Hrow' as <-.
    pose proof Hmx as Hmx'. vm_compute in Hmx'. injection Hmx' as <-.
    vm_compute. reflexivity. }
  split; [exact Hold|]. split; [exact Hrow|]. split; [exact Hmx|].
  split; [exact Hgr|]. split; [exact Hupd|]. split; [exact Hbody|exact Hcell].
Defined.

(** C3 on the row [-0.5, 0, 0, 0] of state 1, with [epsilon = 0.99]. *)
Lemma get_action_epsilon_greedy_witness :
  let u := (rng_uniform (rng agent1)).1 in
  let g1 := (rng_uniform (rng agent1)).2 in
  let i := (rng_integers (length (actions agent1)) g1).1 in
  let g2 := (rng_integers (length (actions agent1)) g1).2 in
  exists (row : ndarray1) (k : nat),
    qtable agent1 !! Z.to_nat 1 = Some row /\
    (no_nan row ->
       exists mx, row !! k = Some mx /\
         (forall j y, row !! j = Some y -> F64.leb y mx = true) /\
         (forall j y, (j < k)%nat -> row !! j = Some y -> F64.ltb y mx = true)) /\
    (F64.ltb u f0_99 = true ->
       exists x, actions agent1 !! i = Some x /\ (i < length (actions agent1))%nat /\
         get_action 1 f0_99 agent1 = (Ok x, set_rng g2 agent1)) /\
    (F64.ltb u f0_99 = false ->
       get_action 1 f0_99 agent1 = (Ok (Z.of_nat k), set_rng g1 agent1)) /\
    get_action 1 F64.zero agent1 = (Ok (Z.of_nat k), set_rng g1 agent1).
Proof.
  apply (get_action_epsilon_greedy agent1 5 4 1 f0_99);
    [exact agent1_shape|lia|lia|discriminate].
Defined.

(** C4 on the office, from two different pasts. *)
Lemma reset_seed_deterministic_witness :
  GridEnv.layout office_env = GridEnv.layout office_env_at_1 /\
  (GridEnv.run 3 [1; 3; 0; 3; 1] office_env).1 =
    (GridEnv.run 3 [1; 3; 0; 3; 1] office_env_at_1).1 /\
  (GridEnv.run 3 [1; 3; 0; 3; 1]
     (GridEnv.run 3 [1; 3; 0; 3; 1] office_env).2).1 =
    (GridEnv.run 3 [1; 3; 0; 3; 1] office_env).1.
Proof.
  split; [reflexivity|].
  apply (reset_seed_deterministic 3 [1; 3; 0; 3; 1] office_env office_env_at_1).
  reflexivity.
Defined.

(** C6 on the agent built as in the notebook. *)
Lemma qtable_shape_invariant_witness :
  has_shape (qtable agent0) (Z.to_nat 5) (length (arange 4)) /\
  (forall r c, (r < Z.to_nat 5)%nat -> (c < length (arange 4))%nat ->
     cell (qtable agent0) r c = Some F64.zero) /\
  (forall cs : list call,
     has_shape (qtable (do_calls cs agent0)) (Z.to_nat 5) (length (arange 4))).
Proof.
  apply (qtable_shape_invariant 5 (arange 4) f0_5 f0_99 (Some 5) 0 agent0).
  reflexivity.
Defined.

(** C7 on [update_qtable(1, 0, 2, -1)]. *)
Lemma update_qtable_single_cell_witness :
  let ag' := (update_qtable 1 0 2 minus_one agent1).2 in
  (forall r0 c0, (r0, c0) <> (Z.to_nat 1, Z.to_nat 2) ->
     cell (qtable ag') r0 c0 = cell (qtable agent1) r0 c0) /\
  learning_rate ag' = learning_rate agent1 /\
  discount_factor ag' = discount_factor agent1 /\
  actions ag' = actions agent1 /\ rng ag' = rng agent1 /\
  has_shape (qtable ag') 5 4.
Proof.
  apply (update_qtable_single_cell agent1 5 4 1 0 2 minus_one);
    [exact agent1_shape|lia|lia|lia].
Defined.

(** C9 on the entry [Q(1,0) = -0.5] with reward [-0.5] and a next
    state whose row is zero: [-0.5 + 0.99*0 = -0.5]. *)
Lemma update_qtable_fixed_point_witness :
  F64.eqb (F64.add minus_half (F64.mul (discount_factor agent1) F64.zero))
    minus_half = true /\
  exists (new : float64) (ag' : t Z),
    update_qtable 1 2 0 minus_half agent1 = (Ok tt, ag') /\
    cell (qtable ag') (Z.to_nat 1) (Z.to_nat 0) = Some new /\
    F64.eqb new minus_half = true /\
    (forall r0 c0, (r0, c0) <> (Z.to_nat 1, Z.to_nat 0) ->
       cell (qtable ag') r0 c0 = cell (qtable agent1) r0 c0) /\
    (minus_half <> S754_zero true -> ag' = agent1).
Proof.
  split; [reflexivity|].
  apply (update_qtable_fixed_point agent1 5 4 1 2 0 minus_half minus_half
           F64.zero (replicate 4 F64.zero));
    [exact agent1_shape|lia|lia|lia|reflexivity..].
Defined.

(** C10 on the agent built as in the notebook, after two updates. *)
Lemma get_action_in_range_witness :
  let ag := do_calls history agent0 in
  let u := (rng_uniform (rng ag)).1 in
  let i := (rng_integers (Z.to_nat 4) (rng_uniform (rng ag)).2).1 in
  exists a : Z,
    (get_action 1 f0_99 ag).1 = Ok a /\ 0 <= a < 4 /\
    (F64.ltb u f0_99 = true -> arange 4 !! i = Some a /\ a = Z.of_nat i) /\
    (F64.ltb u f0_99 = false ->
       exists row k, qtable ag !! Z.to_nat 1 = Some row /\
         argmax row = Ok k /\ a = Z.of_nat k).
Proof.
  apply (get_action_in_range 5 4 f0_5 f0_99 (Some 5) 0 agent0 history 1 f0_99);
    [reflexivity|lia|lia].
Defined.

(** C9 as stated fails in two ways.  With an infinite learning rate,
    a zero table and a zero reward, [r + df*mx] equals [Q(0,0)] and
    the update writes NaN to [Q(0,0)].  With the numbers of the
    notebook (learning rate 0.5, discount 0.99, reward -10, a next
    row of maximum 10) and [Q(0,0) = -10 + 0.99*10] exactly, the sum
    that the code computes is rounded twice and differs from
    [Q(0,0)], so the update changes it. *)
Lemma fixed_point_fails_as_stated :
  (__init__ 1 (arange 1) F64.infinity f0_99 (Some 0) 0 = Ok agent_inf /\
   cell (qtable agent_inf) 0 0 = Some F64.zero /\
   Np.max [F64.zero] = Ok F64.zero /\
   F64.eqb (F64.add F64.zero (F64.mul (discount_factor agent_inf) F64.zero))
     F64.zero = true /\
   (update_qtable 0 0 0 F64.zero agent_inf).1 = Ok tt /\
   cell (qtable (update_qtable 0 0 0 F64.zero agent_inf).2) 0 0 = Some F64.nan) /\
  (cell (qtable agent_round) 0 0 = Some minus_tenth /\
   Np.max [ten] = Ok ten /\
   (exists r g m q : Q,
      F64.to_Q minus_ten = Some r /\ F64.to_Q (discount_factor agent_round) = Some g /\
      F64.to_Q ten = Some m /\ F64.to_Q minus_tenth = Some q /\
      (r + g * m == q)%Q) /\
   (update_qtable 0 1 0 minus_ten agent_round).1 = Ok tt /\
   exists new,
     cell (qtable (update_qtable 0 1 0 minus_ten agent_round).2) 0 0 = Some new /\
     F64.eqb new minus_tenth = false).
Proof.
  split.
  - repeat split; reflexivity.
  - split; [reflexivity|]. split; [reflexivity|]. split.
    + eexists _, _, _, _. repeat (split; [reflexivity|]). vm_compute. reflexivity.
    + split; [reflexivity|]. eexists. split; reflexivity.
Qed.

(** The terminal step of C2 in numbers: entering the construction
    area from state 1 returns the start state, whose row has maximum
    [Q(0,3) = 5]; the entry written is [0.5*(-10 + 0.99*5) = -2.525],
    where a bootstrap term set to zero would give [-5]. *)
Example terminal_update_bootstraps :
  (train_body F64.zero 1 (agent1, office_env_at_1)).1 = Ok (0, true) /\
  cell (qtable (train_body F64.zero 1 (agent1, office_env_at_1)).2.1) 1 1 =
    Some (F64.lit (-2525) 1000) /\
  td_value f0_5 f0_99 F64.zero minus_ten F64.zero = F64.of_Z (-5).
Proof. repeat split; vm_compute; reflexivity. Qed.

(** A training episode in the office ends, here at its eighth step. *)
Example office_training_episode_finishes :
  (train_episode 8 f0_99 (agent0, office_env)).1 = Finished 0 /\
  (train_episode 7 f0_99 (agent0, office_env)).1 = OutOfFuel.
Proof. split; vm_compute; reflexivity. Qed.


End Witnesses.

(* ===================================================================== *)
(** * Part III: further properties of the notebook's code                 *)
(* ===================================================================== *)

(** ** Indices outside and below the range *)
Section IndexFacts.
Import Np.

Lemma fits_not_overflows (i : Z) : fits i = true -> overflows i = false.
Proof.
  unfold fits, overflows. intros Hf. apply andb_true_iff in Hf as [_ Hf].
  apply Z.ltb_lt in Hf. destruct (Z.leb_spec (2 ^ 63) i); [lia|reflexivity].
Qed.

Lemma overflows_not_fits (i : Z) : overflows i = true -> fits i = false.
Proof.
  intros Ho. destruct (fits i) eqn:Hf; [|reflexivity].
  apply fits_not_overflows in Hf. congruence.
Qed.

Lemma fits_true (i : Z) : - 2 ^ 63 <= i < 2 ^ 63 -> fits i = true.
Proof.
  intros Hi. unfold fits. apply andb_true_iff.
  split; [apply Z.leb_le|apply Z.ltb_lt]; lia.
Qed.

Lemma overflows_true (i : Z) : 2 ^ 63 <= i < 2 ^ 64 -> overflows i = true.
Proof.
  intros Hi. unfold overflows. apply andb_true_iff.
  split; [apply Z.leb_le|apply Z.ltb_lt]; lia.
Qed.

Lemma norm_index_spec (n : nat) (i : Z) :
  match norm_index n i with
  | Ok k =>
      - Z.of_nat n <= i < Z.of_nat n /\ (k < n)%nat /\
      Z.of_nat k = (if 0 <=? i then i else i + Z.of_nat n)
  | Raise e =>
      ~ (- Z.of_nat n <= i < Z.of_nat n) /\
      e = (if overflows i then OverflowError else IndexError)
  end.
Proof.
  unfold norm_index.
  destruct (Z.leb_spec 0 i), (Z.ltb_spec i (Z.of_nat n)); cbn [andb];
    try (split; [lia|split; lia]);
    destruct (Z.leb_spec (- Z.of_nat n) i), (Z.ltb_spec i 0); cbn [andb];
    try (split; [lia|split; lia]);
    destruct (overflows i); (split; [lia|reflexivity]).
Qed.

Lemma norm_index_wrap (n : nat) (i : Z) :
  0 <= i < Z.of_nat n -> norm_index n (i - Z.of_nat n) = norm_index n i.
Proof.
  intros Hi. rewrite (norm_index_nonneg n i Hi). unfold norm_index.
  destruct (Z.leb_spec 0 (i - Z.of_nat n)); [lia|]. cbn [andb].
  destruct (Z.leb_spec (- Z.of_nat n) (i - Z.of_nat n)); [|lia].
  destruct (Z.ltb_spec (i - Z.of_nat n) 0); [|lia]. cbn [andb].
  f_equal. lia.
Qed.

Lemma get_row_spec (t : ndarray2) (n m : nat) (i : Z) :
  has_shape t n m ->
  match get_row t i with
  | Ok row => - Z.of_nat n <= i < Z.of_nat n /\ length row = m
  | Raise e =>
      ~ (- Z.of_nat n <= i < Z.of_nat n) /\
      e = (if overflows i then OverflowError else IndexError)
  end.
Proof.
  intros Hs. pose proof Hs as [Hlen _]. unfold get_row.
  pose proof (norm_index_spec (length t) i) as Hn.
  destruct (norm_index (length t) i) as [k|e]; cbn [res_bind].
  - destruct Hn as (Hi & Hk & _).
    destruct (lookup_lt_is_Some_2 t k Hk) as [row Hrow]. rewrite Hrow.
    split; [lia|]. eapply has_shape_row; eassumption.
  - destruct Hn as [Hn ->]. split; [lia|reflexivity].
Qed.

(** The exception of [t[i, j]]: [IndexError] when both indices fit 64
    bits, [OverflowError] when the row index is in [[2^63, 2^64)]. *)
Lemma get2_spec (t : ndarray2) (n m : nat) (i j : Z) :
  has_shape t n m ->
  match get2 t i j with
  | Ok _ => - Z.of_nat n <= i < Z.of_nat n /\ - Z.of_nat m <= j < Z.of_nat m
  | Raise e =>
      ~ (- Z.of_nat n <= i < Z.of_nat n /\ - Z.of_nat m <= j < Z.of_nat m) /\
      (fits i = true -> fits j = true -> e = IndexError) /\
      (overflows i = true -> Z.of_nat n <= 2 ^ 63 -> e = OverflowError)
  end.
Proof.
  intros Hs. unfold get2. pose proof (get_row_spec t n m i Hs) as Hr.
  destruct (get_row t i) as [row|e].
  - destruct Hr as [Hi Hm]. unfold get1.
    pose proof (norm_index_spec (length row) j) as Hn.
    destruct (norm_index (length row) j) as [k|e]; cbn [res_bind].
    + destruct Hn as (Hj & Hk & _).
      destruct (lookup_lt_is_Some_2 row k Hk) as [x Hx]. rewrite Hx.
      split; [exact Hi|lia].
    + destruct Hn as [Hn ->]. split; [lia|]. split.
      * intros _ Hj. rewrite (fits_not_overflows j Hj). reflexivity.
      * intros Ho Hle. unfold overflows in Ho.
        apply andb_true_iff in Ho as [Ho _]. apply Z.leb_le in Ho. lia.
  - destruct Hr as [Hr ->]. split; [tauto|]. unfold row_error. split.
    + intros Hi Hj. rewrite (fits_not_overflows j Hj), (fits_not_overflows i Hi).
      rewrite andb_false_r. reflexivity.
    + intros Ho _. rewrite (overflows_not_fits i Ho), Ho. reflexivity.
Qed.

Lemma set2_spec (t : ndarray2) (n m : nat) (i j : Z) (x : float64) :
  has_shape t n m ->
  match set2 t i j x with
  | Ok _ => True
  | Raise e =>
      ~ (- Z.of_nat n <= i < Z.of_nat n /\ - Z.of_nat m <= j < Z.of_nat m)
  end.
Proof.
  intros Hs. pose proof Hs as [Hlen _]. unfold set2.
  pose proof (norm_index_spec (length t) i) as Hn.
  destruct (norm_index (length t) i) as [k|e].
  - destruct Hn as (Hi & Hk & _).
    destruct (lookup_lt_is_Some_2 t k Hk) as [row Hrow]. rewrite Hrow.
    pose proof (has_shape_row _ _ _ _ _ Hs Hrow) as Hm.
    pose proof (norm_index_spec (length row) j) as Hn'.
    destruct (norm_index (length row) j) as [k'|e]; cbn [res_bind];
      [exact I|]. destruct Hn' as [Hn' _]. lia.
  - destruct Hn as [Hn _]. lia.
Qed.

Lemma get_row_wrap (t : ndarray2) (i : Z) :
  0 <= i < Z.of_nat (length t) ->
  get_row t (i - Z.of_nat (length t)) = get_row t i.
Proof. intros Hi. unfold get_row. rewrite norm_index_wrap by exact Hi. reflexivity. Qed.

Lemma get2_wrap (t : ndarray2) (n m : nat) (i j : Z) :
  has_shape t n m -> 0 <= i < Z.of_nat n -> 0 <= j < Z.of_nat m ->
  get2 t (i - Z.of_nat n) (j - Z.of_nat m) = get2 t i j.
Proof.
  intros Hs Hi Hj. pose proof Hs as [Hlen _]. unfold get2. subst n.
  rewrite get_row_wrap by exact Hi.
  pose proof (get_row_spec t _ m i Hs) as Hr.
  destruct (get_row t i) as [row|e]; [|destruct Hr as [Hr _]; lia].
  destruct Hr as [_ <-]. unfold get1. rewrite norm_index_wrap by exact Hj.
  reflexivity.
Qed.

Lemma set2_wrap (t : ndarray2) (n m : nat) (i j : Z) (x : float64) :
  has_shape t n m -> 0 <= i < Z.of_nat n -> 0 <= j < Z.of_nat m ->
  set2 t (i - Z.of_nat n) (j - Z.of_nat m) x = set2 t i j x.
Proof.
  intros Hs Hi Hj. pose proof Hs as [Hlen _]. unfold set2. subst n.
  rewrite norm_index_wrap by exact Hi.
  rewrite (norm_index_nonneg _ i Hi).
  destruct (t !! Z.to_nat i) as [row|] eqn:Hrow; [|reflexivity].
  rewrite <- (has_shape_row _ _ _ _ _ Hs Hrow) in Hj |- *.
  rewrite norm_index_wrap by exact Hj. reflexivity.
Qed.

End IndexFacts.

(** ** [np.max] and [np.argmax] agree *)
Section ArgmaxAgree.
Import Np.

Lemma fold_maximum_nan (xs : ndarray1) : fold_left maximum xs S754_nan = S754_nan.
Proof.
  induction xs as [|x xs IH]; [reflexivity|]. cbn [fold_left].
  unfold maximum at 2. cbn [F64.is_nan]. rewrite orb_true_r. exact IH.
Qed.

Lemma argmax_scan_agree (xs pre : ndarray1) (mp : float64) (best : nat) :
  F64.is_nan mp = false -> pre !! best = Some mp ->
  (pre ++ xs) !! argmax_scan xs (length pre) mp best =
    Some (fold_left maximum xs mp).
Proof.
  revert pre mp best. induction xs as [|x xs IH]; intros pre mp best Hmp Hbest.
  - cbn [argmax_scan fold_left]. rewrite app_nil_r. exact Hbest.
  - assert (length (pre ++ [x]) = S (length pre)) as Hlen.
    { rewrite length_app. cbn. lia. }
    assert (pre ++ x :: xs = (pre ++ [x]) ++ xs) as Happ.
    { rewrite <- app_assoc. reflexivity. }
    cbn [argmax_scan fold_left]. unfold maximum at 2.
    destruct (F64.leb x mp) eqn:Hx; cbn [negb orb].
    + rewrite Happ, <- Hlen. apply IH; [exact Hmp|].
      apply lookup_app_l_Some. exact Hbest.
    + rewrite Hmp. destruct (F64.is_nan x) eqn:Hnan.
      * destruct x; try discriminate. rewrite fold_maximum_nan.
        rewrite lookup_app_r by lia. rewrite Nat.sub_diag. reflexivity.
      * rewrite Happ, <- Hlen. apply IH; [exact Hnan|].
        rewrite lookup_app_r by lia. rewrite Nat.sub_diag. reflexivity.
Qed.

(** The entry at the index [np.argmax] returns is the value [np.max]
    returns, on every row, NaN included. *)
Lemma argmax_max_agree (row : ndarray1) (k : nat) (mx : float64) :
  argmax row = Ok k -> Np.max row = Ok mx -> row !! k = Some mx.
Proof.
  destruct row as [|x xs]; [discriminate|]. unfold argmax, Np.max.
  intros [= <-] [= <-]. destruct (F64.is_nan x) eqn:Hnan.
  - destruct x; try discriminate. rewrite fold_maximum_nan. reflexivity.
  - exact (argmax_scan_agree xs [x] x 0%nat Hnan eq_refl).
Qed.

Lemma eqb_not_nan_refl (x : float64) : F64.is_nan x = false -> F64.eqb x x = true.
Proof.
  destruct x as [s|s| |s m e]; try discriminate; intros _.
  - reflexivity.
  - destruct s; reflexivity.
  - apply eqb_finite_refl. reflexivity.
Qed.

Lemma fold_maximum_not_nan (xs : ndarray1) (x : float64) :
  F64.is_nan (fold_left maximum xs x) = false ->
  F64.is_nan x = false /\ no_nan xs.
Proof.
  revert x. induction xs as [|y ys IH]; intros x Hx.
  - split; [exact Hx|constructor].
  - cbn [fold_left] in Hx. apply IH in Hx as [Hm Hys]. unfold maximum in Hm.
    destruct (F64.is_nan x) eqn:Hxn.
    + rewrite orb_true_r in Hm. congruence.
    + rewrite orb_false_r in Hm. destruct (F64.leb y x) eqn:Hle.
      * split; [reflexivity|]. constructor; [|exact Hys].
        apply leb_not_nan in Hle. tauto.
      * split; [reflexivity|]. constructor; [exact Hm|exact Hys].
Qed.

(** A row whose [np.max] is a number holds no NaN. *)
Lemma max_not_nan_row (row : ndarray1) (mx : float64) :
  Np.max row = Ok mx -> F64.is_nan mx = false -> no_nan row.
Proof.
  destruct row as [|x xs]; [discriminate|]. intros [= <-] Hmx.
  apply fold_maximum_not_nan in Hmx as [Hx Hxs]. constructor; assumption.
Qed.

Lemma argmax_scan_zeros (m i best : nat) :
  argmax_scan (replicate m F64.zero) i F64.zero best = best.
Proof.
  revert i. induction m as [|m IH]; intros i; [reflexivity|].
  cbn [replicate argmax_scan]. change (F64.leb F64.zero F64.zero) with true.
  cbn [negb]. apply IH.
Qed.

Lemma argmax_zeros (m : nat) : argmax (replicate (S m) F64.zero) = Ok 0%nat.
Proof.
  change (argmax (replicate (S m) F64.zero))
    with (@Ok nat (argmax_scan (replicate m F64.zero) 1 F64.zero 0)).
  rewrite argmax_scan_zeros. reflexivity.
Qed.

Lemma fold_maximum_zeros (m : nat) :
  fold_left maximum (replicate m F64.zero) F64.zero = F64.zero.
Proof. induction m as [|m IH]; [reflexivity|]. cbn [replicate fold_left]. exact IH. Qed.

End ArgmaxAgree.

(** ** Errors, negative indices and fresh tables *)
Section AgentExtras.
Context `{Generator G}.
Import Np QLearningAgent.

(** X1. [update_qtable] returns exactly when the two states and the
    action are indices numpy accepts, in [[-n, n)] and [[-m, m)] for a
    table of [n] rows and [m] columns; otherwise it raises and leaves
    the agent as it was.  The exception is [IndexError] when the
    three indices fit a signed 64-bit integer, and [OverflowError]
    when the current state is in [[2^63, 2^64)]. *)
Theorem update_qtable_raises_iff_out_of_range (ag : t G) (n m : nat)
    (s s' a : Z) (r : float64) :
  has_shape (qtable ag) n m ->
  ((update_qtable s s' a r ag).1 = Ok tt <->
   (- Z.of_nat n <= s < Z.of_nat n /\ - Z.of_nat n <= s' < Z.of_nat n /\
    - Z.of_nat m <= a < Z.of_nat m)) /\
  ((update_qtable s s' a r ag).1 <> Ok tt ->
   (update_qtable s s' a r ag).2 = ag) /\
  (- 2 ^ 63 <= s < 2 ^ 63 -> - 2 ^ 63 <= s' < 2 ^ 63 ->
   - 2 ^ 63 <= a < 2 ^ 63 ->
   (update_qtable s s' a r ag).1 <> Ok tt ->
   (update_qtable s s' a r ag).1 = Raise IndexError) /\
  (2 ^ 63 <= s < 2 ^ 64 -> Z.of_nat n <= 2 ^ 63 ->
   (update_qtable s s' a r ag).1 = Raise OverflowError).
Proof.
  intros Hs. rewrite update_qtable_unfold.
  pose proof (get2_spec (qtable ag) n m s a Hs) as Hget.
  pose proof (get_row_spec (qtable ag) n m s' Hs) as Hrow.
  destruct (get2 (qtable ag) s a) as [old|e]; cbn [res_bind].
  - destruct Hget as [Hi Hj].
    destruct (get_row (qtable ag) s') as [row|e]; cbn [res_bind].
    + destruct Hrow as [Hi' Hlen].
      destruct (max_ok row) as [mx Hmx].
      { intros ->. cbn in Hlen. lia. }
      rewrite Hmx. cbn [res_bind].
      pose proof (set2_spec (qtable ag) n m s a
        (td_value (learning_rate ag) (discount_factor ag) old r mx) Hs) as Hset.
      destruct (set2 _ _ _ _) as [q'|e]; cbn [fst snd]; [|tauto].
      split; [tauto|]. split; [congruence|]. split; [congruence|].
      intros Ho Hn. lia.
    + destruct Hrow as [Hrow ->]. cbn [fst snd].
      split; [split; [discriminate|tauto]|]. split; [reflexivity|]. split.
      * intros _ Hf _ _. rewrite (fits_not_overflows s' (fits_true s' Hf)).
        reflexivity.
      * intros Ho Hn. lia.
  - destruct Hget as (Hget & Hfit & Hover). cbn [fst snd].
    split; [split; [discriminate|tauto]|]. split; [reflexivity|]. split.
    + intros Hf _ Hf' _. rewrite (Hfit (fits_true s Hf) (fits_true a Hf')).
      reflexivity.
    + intros Ho Hn. rewrite (Hover (overflows_true s Ho) Hn). reflexivity.
Qed.

(** X2. A negative state or action counts from the end: on a table of
    [n] rows and [m] columns, [update_qtable(s - n, s' - n, a - m, r)]
    does what [update_qtable(s, s', a, r)] does, and
    [get_action(s - n, epsilon)] what [get_action(s, epsilon)] does. *)
Theorem negative_indices_wrap (ag : t G) (n m : nat) (s s' a : Z)
    (r epsilon : float64) :
  has_shape (qtable ag) n m ->
  0 <= s < Z.of_nat n -> 0 <= s' < Z.of_nat n -> 0 <= a < Z.of_nat m ->
  update_qtable (s - Z.of_nat n) (s' - Z.of_nat n) (a - Z.of_nat m) r ag =
    update_qtable s s' a r ag /\
  get_action (s - Z.of_nat n) epsilon ag = get_action s epsilon ag.
Proof.
  intros Hs Hi Hi' Hj. pose proof Hs as [Hlen _]. split.
  - rewrite !update_qtable_unfold.
    rewrite (get2_wrap _ _ _ s a Hs Hi Hj).
    destruct (get2 (qtable ag) s a) as [old|e]; cbn [res_bind]; [|reflexivity].
    rewrite <- Hlen at 1. rewrite get_row_wrap by lia.
    destruct (get_row (qtable ag) s') as [row|e]; cbn [res_bind]; [|reflexivity].
    destruct (Np.max row) as [mx|e]; cbn [res_bind]; [|reflexivity].
    rewrite (set2_wrap _ _ _ s a _ Hs Hi Hj). reflexivity.
  - rewrite !get_action_unfold. unfold greedy.
    rewrite <- Hlen. rewrite get_row_wrap by lia. reflexivity.
Qed.

(** X3. An exploring call never reads the state nor the table: when the
    uniform draw is below [epsilon], the action returned and the
    generator left are the same for every state, valid or not, and
    every table. *)
Theorem exploring_ignores_state_and_table (ag : t G) (state state' : Z)
    (epsilon : float64) (q' : ndarray2) :
  F64.ltb (rng_uniform (rng ag)).1 epsilon = true ->
  (get_action state epsilon ag).1 =
    (get_action state' epsilon (set_qtable q' ag)).1 /\
  rng (get_action state epsilon ag).2 =
    rng (get_action state' epsilon (set_qtable q' ag)).2.
Proof.
  intros Hu. rewrite !get_action_unfold. cbn [rng actions set_qtable].
  destruct (rng_uniform (rng ag)) as [u g1]. cbn [fst] in Hu. rewrite Hu.
  destruct (rng_choice (actions ag) g1) as [x g2]. split; reflexivity.
Qed.

(** X4. The errors of an exploiting call: [get_action(state, 0)] raises
    [IndexError] for a state outside [[-n, n)] that fits a signed
    64-bit integer, [OverflowError] for a state in [[2^63, 2^64)],
    [ValueError] for a table without columns, and otherwise returns a
    column index. *)
Theorem greedy_action_errors (ag : t G) (n m : nat) (state : Z) :
  has_shape (qtable ag) n m ->
  (~ (- Z.of_nat n <= state < Z.of_nat n) -> - 2 ^ 63 <= state < 2 ^ 63 ->
   (get_action state F64.zero ag).1 = Raise IndexError) /\
  (2 ^ 63 <= state < 2 ^ 64 -> Z.of_nat n <= 2 ^ 63 ->
   (get_action state F64.zero ag).1 = Raise OverflowError) /\
  (- Z.of_nat n <= state < Z.of_nat n -> m = O ->
   (get_action state F64.zero ag).1 = Raise ValueError) /\
  (- Z.of_nat n <= state < Z.of_nat n -> (0 < m)%nat ->
   exists k, (k < m)%nat /\ (get_action state F64.zero ag).1 = Ok (Z.of_nat k)).
Proof.
  intros Hs. rewrite get_action_unfold.
  pose proof (uniform_not_below_zero (rng ag)) as H0.
  destruct (rng_uniform (rng ag)) as [u g1]. cbn [fst] in H0. rewrite H0.
  cbn [fst]. unfold greedy.
  pose proof (get_row_spec (qtable ag) n m state Hs) as Hrow.
  destruct (get_row (qtable ag) state) as [row|e]; cbn [res_bind].
  - destruct Hrow as [Hi Hlen]. split; [tauto|]. split; [lia|]. split.
    + intros _ ->. destruct row; [reflexivity|discriminate].
    + intros _ Hm. destruct (argmax row) as [k|e] eqn:Hk; cbn [res_bind].
      * exists k. split; [|reflexivity].
        apply argmax_lt_length in Hk. lia.
      * destruct row; [cbn in Hlen; lia|discriminate].
  - destruct Hrow as [Hrow ->]. split; [|split; [|split; tauto]].
    + intros _ Hf. rewrite (fits_not_overflows _ (fits_true _ Hf)). reflexivity.
    + intros Ho _. rewrite (overflows_true _ Ho). reflexivity.
Qed.

(** X5. The value [update_qtable] bootstraps from is, as a number, the
    table entry of the action that [get_action] with [epsilon = 0]
    selects in the next state: on a row of numbers
    [qtable[s', get_action(s', 0)] == np.max(qtable[s'])], and on a row
    that holds NaN both are NaN.  The comparison is Python's [==]:
    which of two zeros of opposite sign [np.max] returns is not
    asserted. *)
Theorem bootstrap_is_greedy_value (ag : t G) (n m : nat) (s' : Z) :
  has_shape (qtable ag) n m -> 0 <= s' < Z.of_nat n -> (0 < m)%nat ->
  exists (k : nat) (row : ndarray1) (mx v : float64),
    (get_action s' F64.zero ag).1 = Ok (Z.of_nat k) /\
    get_row (qtable ag) s' = Ok row /\ Np.max row = Ok mx /\
    get2 (qtable ag) s' (Z.of_nat k) = Ok v /\
    (no_nan row -> F64.eqb v mx = true) /\
    (~ no_nan row -> F64.is_nan v = true /\ F64.is_nan mx = true).
Proof.
  intros Hs Hi Hm.
  destruct (greedy_ok _ _ _ s' Hs Hi Hm) as (row & k & Hr & Hlen & Hk & Hlt & Hg).
  destruct (max_ok row) as [mx Hmx].
  { intros ->. cbn in Hlen. lia. }
  pose proof (argmax_max_agree row k mx Hk Hmx) as Hkm.
  destruct (get_row_ok (qtable ag) s') as (row0 & Hr0 & Hrow0).
  { destruct Hs as [-> _]. exact Hi. }
  assert (row0 = row) as -> by congruence.
  exists k, row, mx, mx.
  split; [|split; [exact Hrow0|split; [exact Hmx|split; [|split]]]].
  - rewrite get_action_unfold.
    pose proof (uniform_not_below_zero (rng ag)) as H0.
    destruct (rng_uniform (rng ag)) as [u g1]. cbn [fst] in H0. rewrite H0.
    cbn [fst]. exact Hg.
  - unfold get2, get1. rewrite Hrow0. cbn [res_bind].
    rewrite norm_index_nonneg by lia. cbn [res_bind].
    rewrite Nat2Z.id, Hkm. reflexivity.
  - intros Hnan. apply eqb_not_nan_refl.
    apply list_elem_of_lookup_2 in Hkm.
    unfold no_nan in Hnan. rewrite Forall_forall in Hnan. exact (Hnan _ Hkm).
  - intros Hnan. destruct (F64.is_nan mx) eqn:Hmxn; [auto|]. exfalso.
    apply Hnan. exact (max_not_nan_row row mx Hmx Hmxn).
Qed.

End AgentExtras.

Section FreshAgent.
Context `{Generator G}.
Import Np QLearningAgent.

Lemma fresh_row (nstates : Z) (m : nat) (q : ndarray2) (state : Z) :
  zeros nstates m = Ok q -> 0 <= state < nstates ->
  q !! Z.to_nat state = Some (replicate m F64.zero).
Proof.
  unfold zeros. destruct (nstates <? 0); [discriminate|]. intros [= <-] Hi.
  apply lookup_replicate. split; [reflexivity|lia].
Qed.

(** X6. On the table of a new agent every action is tied, so an
    exploiting call returns action index 0 in every valid state. *)
Theorem fresh_agent_greedy_is_zero (nstates : Z) (acts : list Z)
    (lr df : float64) (seed : option Z) (entropy : Z) (ag0 : t G) (state : Z) :
  __init__ nstates acts lr df seed entropy = Ok ag0 ->
  acts <> [] -> 0 <= state < nstates ->
  (get_action state F64.zero ag0).1 = Ok 0.
Proof.
  intros Hinit Hne Hstate.
  apply init_inv in Hinit as (Hn & _ & _ & _ & Hz & _).
  pose proof (fresh_row _ _ _ state Hz Hstate) as Hrow.
  pose proof (has_shape_zeros _ _ _ Hz) as [Hlen _].
  rewrite get_action_unfold.
  pose proof (uniform_not_below_zero (rng ag0)) as H0.
  destruct (rng_uniform (rng ag0)) as [u g1]. cbn [fst] in H0. rewrite H0.
  cbn [fst]. unfold greedy, get_row.
  rewrite norm_index_nonneg by lia. cbn [res_bind]. rewrite Hrow.
  destruct acts as [|a0 acts']; [congruence|]. cbn [length res_bind].
  rewrite argmax_zeros. reflexivity.
Qed.

(** X7. The first update of an entry of a new table, with a finite
    discount factor and a finite reward other than zero, writes
    [0 + lr*reward]: neither the discount factor nor the next state
    has a part in it. *)
Theorem first_update_writes_rate_times_reward (nstates : Z) (acts : list Z)
    (lr df : float64) (seed : option Z) (entropy : Z) (ag0 : t G)
    (s s' a : Z) (sg : bool) (mr : positive) (er : Z) :
  __init__ nstates acts lr df seed entropy = Ok ag0 ->
  0 <= s < nstates -> 0 <= s' < nstates ->
  0 <= a < Z.of_nat (length acts) ->
  F64.is_finite df = true ->
  let r := S754_finite sg mr er in
  (update_qtable s s' a r ag0).1 = Ok tt /\
  cell (qtable (update_qtable s s' a r ag0).2) (Z.to_nat s) (Z.to_nat a) =
    Some (F64.add F64.zero (F64.mul lr r)).
Proof.
  intros Hinit Hs Hs' Ha Hdf r.
  apply init_inv in Hinit as (Hn & _ & Hlr & Hdf0 & Hz & _).
  pose proof (has_shape_zeros _ _ _ Hz) as Hshape.
  destruct (update_qtable_ok ag0 _ _ s s' a r Hshape) as
    (old & row & row' & mx & Hrow & Hold & Hrow' & Hmx & Hupd); [lia..|].
  rewrite (fresh_row _ _ _ s Hz Hs) in Hrow. injection Hrow as <-.
  rewrite (fresh_row _ _ _ s' Hz Hs') in Hrow'. injection Hrow' as <-.
  apply lookup_replicate in Hold as [-> Hlt].
  assert (mx = F64.zero) as ->.
  { destruct (length acts) as [|m]; [lia|]. cbn [replicate Np.max] in Hmx.
    rewrite fold_maximum_zeros in Hmx. congruence. }
  rewrite Hupd. cbn [fst snd qtable set_qtable]. split; [reflexivity|].
  rewrite cell_insert_eq.
  - f_equal. unfold td_value. rewrite Hlr, Hdf0.
    destruct (mul_finite_zero df false Hdf) as [s0 Hmul].
    change (F64.mul df F64.zero) with (F64.mul df (S754_zero false)).
    rewrite Hmul. reflexivity.
  - exact (fresh_row _ _ _ s Hz Hs).
  - rewrite length_replicate. exact Hlt.
Qed.

Lemma update_qtable_no_columns (ag : t G) (n : nat) (s s' a : Z) (r : float64) :
  has_shape (qtable ag) n 0 ->
  exists e, update_qtable s s' a r ag = (Raise e, ag) /\
    (- 2 ^ 63 <= s < 2 ^ 63 -> - 2 ^ 63 <= a < 2 ^ 63 -> e = IndexError).
Proof.
  intros Hs. rewrite update_qtable_unfold.
  pose proof (get2_spec (qtable ag) n 0 s a Hs) as Hget.
  destruct (get2 (qtable ag) s a) as [old|e]; cbn [res_bind].
  - destruct Hget as [_ Ha]. lia.
  - destruct Hget as (_ & Hfit & _). exists e. split; [reflexivity|].
    intros Hf Hf'. exact (Hfit (fits_true s Hf) (fits_true a Hf')).
Qed.

(** X8. An agent built with an empty action array can neither act nor
    learn: after any sequence of calls every [get_action] raises,
    every [update_qtable] raises, with [IndexError] when state and
    action fit a signed 64-bit integer, and the table is the one the
    constructor built. *)
Theorem empty_action_set_never_acts (nstates : Z) (lr df : float64)
    (seed : option Z) (entropy : Z) (ag0 : t G) (cs : list call)
    (state s s' a : Z) (epsilon r : float64) :
  __init__ nstates [] lr df seed entropy = Ok ag0 ->
  is_ok (get_action state epsilon (do_calls cs ag0)).1 = false /\
  is_ok (update_qtable s s' a r (do_calls cs ag0)).1 = false /\
  (- 2 ^ 63 <= s < 2 ^ 63 -> - 2 ^ 63 <= a < 2 ^ 63 ->
   (update_qtable s s' a r (do_calls cs ag0)).1 = Raise IndexError) /\
  qtable (do_calls cs ag0) = qtable ag0.
Proof.
  intros Hinit. apply init_inv in Hinit as (Hn & Hacts & _ & _ & Hz & _).
  pose proof (has_shape_zeros _ _ _ Hz) as Hshape. cbn [length] in Hshape.
  destruct (do_calls_invariant cs ag0 _ _ Hshape) as (Hacts' & _ & _ & Hshape').
  split; [|split; [|split]].
  - rewrite get_action_unfold. destruct (rng_uniform _) as [u g1].
    destruct (F64.ltb u epsilon).
    + rewrite Hacts', Hacts. reflexivity.
    + cbn [fst]. unfold greedy.
      pose proof (get_row_spec _ _ _ state Hshape') as Hrow.
      destruct (get_row _ state) as [row|e]; cbn [res_bind]; [|reflexivity].
      destruct Hrow as [_ Hlen]. destruct row; [reflexivity|discriminate].
  - destruct (update_qtable_no_columns _ _ s s' a r Hshape') as (e & -> & _).
    reflexivity.
  - intros Hf Hf'.
    destruct (update_qtable_no_columns _ _ s s' a r Hshape') as (e & -> & He).
    rewrite (He Hf Hf'). reflexivity.
  - clear Hshape' Hacts'. revert ag0 Hshape Hacts Hz.
    induction cs as [|c cs IH]; intros ag0 Hshape Hacts Hz; [reflexivity|].
    unfold do_calls. cbn [fold_left]. fold (do_calls cs (do_call ag0 c)).
    assert (do_call ag0 c = ag0 \/
            (qtable (do_call ag0 c) = qtable ag0 /\
             actions (do_call ag0 c) = actions ag0)) as Hstep.
    { destruct c as [st eps|s1 s2 a1 r1]; cbn [do_call].
      - right. destruct (get_action_frame st eps ag0) as (Ha & Hq & _). auto.
      - left. destruct (update_qtable_no_columns _ _ s1 s2 a1 r1 Hshape)
          as (e & -> & _). reflexivity. }
    assert (qtable (do_call ag0 c) = qtable ag0 /\
            actions (do_call ag0 c) = actions ag0) as [Hq Ha].
    { destruct Hstep as [->|?]; auto. }
    rewrite <- Hq. apply IH.
    + rewrite Hq. exact Hshape.
    + congruence.
    + rewrite Hq. exact Hz.
Qed.

End FreshAgent.

(** ** The random agent and the outer loops *)
Section LoopExtras.
Context `{Generator G} `{Env E}.

(** A loop leaves in place whatever every iteration of its body
    leaves in place, however it ends. *)
Lemma while_preserves {W L : Type} (body : L -> M W (L * bool))
    (P : W -> Prop) :
  (forall l w, P w -> P (body l w).2) ->
  forall fuel l w, P w -> P (while_not_done body fuel l w).2.
Proof.
  intros Hbody. induction fuel as [|fuel IH]; intros l w Hw;
    cbn [while_not_done]; [exact Hw|].
  specialize (Hbody l w Hw).
  destruct (body l w) as [[[l' [|]]|e] w']; cbn [snd] in *; auto.
Qed.

Lemma rng_choice_inv (acts : list Z) (g g' : G) (x : Z) :
  rng_choice acts g = (Ok x, g') -> x ∈ acts.
Proof.
  unfold rng_choice. destruct acts as [|a0 acts']; [discriminate|].
  destruct (rng_integers _ g) as [i g1].
  destruct (_ !! i) as [y|] eqn:Hy; [|discriminate].
  intros [= <- _]. eapply list_elem_of_lookup_2. exact Hy.
Qed.

(** X9. [RandomAgent.get_action] returns an entry of the action array and
    changes nothing but the generator; on an empty array it raises
    [ValueError] and changes nothing at all. *)
Theorem random_agent_get_action (ag : RandomAgent.t G) :
  (RandomAgent.actions ag <> [] ->
   exists x, x ∈ RandomAgent.actions ag /\
     (RandomAgent.get_action ag).1 = Ok x) /\
  (RandomAgent.actions ag = [] ->
   RandomAgent.get_action ag = (Raise ValueError, ag)) /\
  RandomAgent.actions (RandomAgent.get_action ag).2 = RandomAgent.actions ag /\
  RandomAgent.best_action_sequence (RandomAgent.get_action ag).2 =
    RandomAgent.best_action_sequence ag /\
  RandomAgent.highest_reward_episode (RandomAgent.get_action ag).2 =
    RandomAgent.highest_reward_episode ag.
Proof.
  unfold RandomAgent.get_action. split; [|split].
  - intros Hne. destruct (rng_choice_ok _ (RandomAgent.rng ag) Hne) as (x & Hx & ->).
    exists x. split; [eapply list_elem_of_lookup_2; exact Hx|reflexivity].
  - intros ->. destruct ag; reflexivity.
  - destruct (rng_choice _ _); cbn. auto.
Qed.

Lemma random_body_step (l l' : float64 * list Z) (d : bool)
    (w w' : RandomAgent.t G * E) :
  random_body l w = (Ok (l', d), w') ->
  RandomAgent.actions w'.1 = RandomAgent.actions w.1 /\
  exists x, x ∈ RandomAgent.actions w.1 /\ l'.2 = l.2 ++ [x].
Proof.
  unfold random_body, mbind, M_bind, bind, on_agent, on_env,
    RandomAgent.get_action.
  destruct (rng_choice _ _) as [[x|e] g'] eqn:Hc; cbn [fst snd]; [|discriminate].
  destruct (env_step x w.2) as [[[[st rw] dn]|e] e']; [|discriminate].
  intros [= <- <- <-]. cbn [fst snd RandomAgent.actions RandomAgent.set_rng].
  split; [reflexivity|]. exists x. split; [|reflexivity].
  eapply rng_choice_inv. exact Hc.
Qed.

Lemma iterates_random_actions (k : nat) (l l1 : float64 * list Z)
    (w w1 : RandomAgent.t G * E) :
  iterates random_body k l w l1 w1 ->
  RandomAgent.actions w1.1 = RandomAgent.actions w.1 /\
  exists new, l1.2 = l.2 ++ new /\ length new = k /\
    Forall (fun a => a ∈ RandomAgent.actions w.1) new.
Proof.
  induction 1 as [l w|k l l1 l2 w w1 w2 Hb _ IH].
  - split; [reflexivity|]. exists []. rewrite app_nil_r. auto.
  - destruct (random_body_step _ _ _ _ _ Hb) as (Ha & x & Hx & Hl).
    destruct IH as (Ha' & new & Hnew & Hlen & Hall).
    split; [congruence|]. exists (x :: new).
    split; [rewrite Hnew, Hl, <- app_assoc; reflexivity|].
    split; [cbn; lia|]. constructor; [exact Hx|]. rewrite <- Ha. exact Hall.
Qed.

(** X10. An episode of the random search that ends has recorded one action
    per iteration of its loop, each an entry of the agent's action
    array, which the episode leaves as it was. *)
Theorem random_episode_records_each_step (fuel : nat) (total : float64)
    (acts : list Z) (w w' : RandomAgent.t G * E) :
  random_episode fuel w = (Finished (total, acts), w') ->
  exists (k : nat) (l1 : float64 * list Z) (w1 : RandomAgent.t G * E),
    iterates random_body k (F64.zero, []) (w.1, (env_reset None w.2).2) l1 w1 /\
    random_body l1 w1 = (Ok ((total, acts), true), w') /\
    length acts = S k /\ (S k <= fuel)%nat /\
    Forall (fun a => a ∈ RandomAgent.actions w.1) acts /\
    RandomAgent.actions w'.1 = RandomAgent.actions w.1.
Proof.
  unfold random_episode, on_env.
  destruct (env_reset None w.2) as [[s0|e] e0]; [|discriminate]. cbn [snd].
  intros Hrun. apply while_finished_inv in Hrun as (k & l1 & w1 & Hk & Hit & Hlast).
  exists k, l1, w1. split; [exact Hit|]. split; [exact Hlast|].
  destruct (iterates_random_actions _ _ _ _ _ Hit) as (Ha & new & Hnew & Hlen & Hall).
  destruct (random_body_step _ _ _ _ _ Hlast) as (Ha' & x & Hx & Hl).
  cbn [fst snd] in *. rewrite Hnew in Hl. cbn [app] in Hl. subst acts.
  split; [rewrite length_app; cbn; lia|]. split; [lia|].
  split; [|congruence]. apply Forall_app. split; [exact Hall|].
  constructor; [|constructor]. rewrite <- Ha. exact Hx.
Qed.

Lemma random_episode_keeps_record (fuel : nat) (w : RandomAgent.t G * E) :
  let w' := (random_episode fuel w).2 in
  RandomAgent.actions w'.1 = RandomAgent.actions w.1 /\
  RandomAgent.best_action_sequence w'.1 = RandomAgent.best_action_sequence w.1 /\
  RandomAgent.highest_reward_episode w'.1 = RandomAgent.highest_reward_episode w.1.
Proof.
  unfold random_episode, on_env.
  destruct (env_reset None w.2) as [[s0|e] e0]; cbn [snd fst]; [|auto].
  apply (while_preserves random_body
    (fun w0 => RandomAgent.actions w0.1 = RandomAgent.actions w.1 /\
       RandomAgent.best_action_sequence w0.1 = RandomAgent.best_action_sequence w.1 /\
       RandomAgent.highest_reward_episode w0.1 =
         RandomAgent.highest_reward_episode w.1)); [|cbn; auto].
  intros l w0 (Ha & Hb & Hh).
  destruct (random_agent_get_action w0.1) as (_ & _ & Ha' & Hb' & Hh').
  unfold random_body, mbind, M_bind, bind, on_agent, on_env, ret.
  destruct (RandomAgent.get_action w0.1) as [[x|e] ag']; cbn [fst snd] in *.
  - destruct (env_step x w0.2) as [[[[st rw] dn]|e] e']; cbn [fst snd];
      repeat split; congruence.
  - repeat split; congruence.
Qed.

(** X11. Over a random search of any length the recorded best only
    improves: either the recorded sequence and reward are what they
    were, or the recorded reward is strictly higher than before; the
    action array is never changed. *)
Theorem random_search_best_only_improves (fuel nepisodes : nat)
    (w : RandomAgent.t G * E) :
  RandomAgent.actions (random_search fuel nepisodes w).2.1 =
    RandomAgent.actions w.1 /\
  ((RandomAgent.best_action_sequence (random_search fuel nepisodes w).2.1 =
      RandomAgent.best_action_sequence w.1 /\
    RandomAgent.highest_reward_episode (random_search fuel nepisodes w).2.1 =
      RandomAgent.highest_reward_episode w.1) \/
   F64.ltb (RandomAgent.highest_reward_episode w.1)
     (RandomAgent.highest_reward_episode (random_search fuel nepisodes w).2.1)
     = true).
Proof.
  revert w. induction nepisodes as [|n IH]; intros w; cbn [random_search].
  - cbn. auto.
  - assert (RandomAgent.actions (search_episode fuel w).2.1 =
              RandomAgent.actions w.1 /\
            ((RandomAgent.best_action_sequence (search_episode fuel w).2.1 =
                RandomAgent.best_action_sequence w.1 /\
              RandomAgent.highest_reward_episode (search_episode fuel w).2.1 =
                RandomAgent.highest_reward_episode w.1) \/
             F64.ltb (RandomAgent.highest_reward_episode w.1)
               (RandomAgent.highest_reward_episode (search_episode fuel w).2.1)
               = true)) as [Ha Hstep].
    { unfold search_episode.
      destruct (random_episode_keeps_record fuel w) as (Ha & Hb & Hh).
      destruct (random_episode fuel w) as [[l| |] w1]; cbn [fst snd] in *; auto.
      unfold record_best.
      destruct (F64.ltb (RandomAgent.highest_reward_episode w1.1) l.1) eqn:Hlt;
        cbn [RandomAgent.actions RandomAgent.best_action_sequence
             RandomAgent.highest_reward_episode]; [|auto].
      split; [exact Ha|]. right. rewrite <- Hh. exact Hlt. }
    destruct (search_episode fuel w) as [[[]|x|] w1]; cbn [snd] in *; auto.
    destruct (IH w1) as [Ha1 Hrest]. split; [congruence|].
    destruct Hstep as [[Hb Hh]|Hlt], Hrest as [[Hb1 Hh1]|Hlt1].
    + left. split; congruence.
    + right. rewrite <- Hh. exact Hlt1.
    + right. rewrite Hh1. exact Hlt.
    + right. eapply leb_ltb_trans; [apply ltb_leb; exact Hlt|exact Hlt1].
Qed.

End LoopExtras.

(** ** The training run *)
Section TrainExtras.
Context `{Generator G} `{Env E}.
Variable square : float64 -> float64.
Import Np QLearningAgent.

Lemma train_body_frame (n m : nat) (ag : t G) (epsilon : float64) (state : Z)
    (w : t G * E) :
  same_frame n m ag w.1 -> same_frame n m ag (train_body epsilon state w).2.1.
Proof.
  intros (Hs & Ha & Hl & Hd).
  unfold train_body, mbind, M_bind, bind, on_agent, on_env, ret.
  destruct (get_action_frame state epsilon w.1) as (Ha1 & Hq1 & Hl1 & Hd1).
  destruct (get_action state epsilon w.1) as [[act|e] ag1]; cbn [fst snd] in *.
  - assert (same_frame n m ag ag1) as Hf1.
    { unfold same_frame. rewrite Hq1. repeat split; try congruence; apply Hs. }
    destruct (env_step act w.2) as [[[[ns rw] dn]|e] e']; cbn [fst snd];
      [|exact Hf1].
    destruct Hf1 as (Hs1 & Ha1' & Hl1' & Hd1').
    pose proof (update_qtable_shape state ns act rw ag1 n m Hs1) as Hs2.
    destruct (update_qtable_frame state ns act rw ag1) as (Ha2 & Hl2 & Hd2 & _).
    destruct (update_qtable state ns act rw ag1) as [[[]|e] ag2];
      cbn [fst snd] in *; unfold same_frame; repeat split;
      try congruence; apply Hs2.
  - unfold same_frame. rewrite Hq1. repeat split; try congruence; apply Hs.
Qed.

Lemma train_episode_frame (n m : nat) (ag : t G) (fuel : nat)
    (epsilon : float64) (w : t G * E) :
  same_frame n m ag w.1 -> same_frame n m ag (train_episode fuel epsilon w).2.1.
Proof.
  intros Hf. unfold train_episode, on_env.
  destruct (env_reset None w.2) as [[s0|e] e0]; cbn [snd fst]; [|exact Hf].
  apply (while_preserves (train_body epsilon) (fun w0 => same_frame n m ag w0.1));
    [|exact Hf].
  intros l w0. apply train_body_frame.
Qed.

(** X12. A training run of any number of episodes, on any environment and
    however it ends, leaves the agent with a table of the same
    dimensions and the same actions, learning rate and discount
    factor. *)
Theorem training_keeps_agent_frame (floor : float64) (fuel nepisodes : nat)
    (epsilon : float64) (w : t G * E) (n m : nat) :
  has_shape (qtable w.1) n m ->
  has_shape (qtable (train_loop square floor fuel nepisodes epsilon w).2.1) n m /\
  actions (train_loop square floor fuel nepisodes epsilon w).2.1 = actions w.1 /\
  learning_rate (train_loop square floor fuel nepisodes epsilon w).2.1 =
    learning_rate w.1 /\
  discount_factor (train_loop square floor fuel nepisodes epsilon w).2.1 =
    discount_factor w.1.
Proof.
  intros Hs. change (same_frame n m w.1
    (train_loop square floor fuel nepisodes epsilon w).2.1).
  assert (same_frame n m w.1 w.1) as Hf by (unfold same_frame; auto).
  revert Hf. generalize w.1 at 1 3 as ag.
  intros ag. clear Hs. revert epsilon w.
  induction nepisodes as [|k IH]; intros epsilon w Hf; cbn [train_loop];
    [exact Hf|].
  pose proof (train_episode_frame n m ag fuel epsilon w Hf) as Hf1.
  destruct (train_episode fuel epsilon w) as [[s1|x|] w1]; cbn [snd] in *;
    [|exact Hf1|exact Hf1].
  apply IH. exact Hf1.
Qed.

(** X13. An iteration of the training loop that raises leaves the table
    as it was before the iteration; when it was [get_action] that
    raised, the environment was not stepped. *)
Theorem failed_iteration_keeps_table (epsilon : float64) (state : Z)
    (ag : t G) (e : E) :
  is_ok (train_body epsilon state (ag, e)).1 = false ->
  qtable (train_body epsilon state (ag, e)).2.1 = qtable ag /\
  (is_ok (get_action state epsilon ag).1 = false ->
   (train_body epsilon state (ag, e)).2.2 = e).
Proof.
  unfold train_body, mbind, M_bind, bind, on_agent, on_env, ret. cbn [fst snd].
  destruct (get_action_frame state epsilon ag) as (_ & Hq1 & _).
  destruct (get_action state epsilon ag) as [[act|x] ag1]; cbn [fst snd] in *.
  - destruct (env_step act e) as [[[[ns rw] dn]|x] e']; cbn [fst snd].
    + rewrite update_qtable_unfold.
      destruct (res_bind _ _) as [q'|x]; cbn [fst snd is_ok]; [discriminate|].
      intros _. split; [exact Hq1|discriminate].
    + intros _. split; [exact Hq1|discriminate].
  - intros _. split; [exact Hq1|reflexivity].
Qed.

Lemma py_max_floor (floor y : float64) :
  F64.is_nan floor = false -> F64.leb floor (py_max floor y) = true.
Proof.
  intros Hf. unfold py_max. destruct (F64.ltb floor y) eqn:Hlt.
  - apply ltb_leb. exact Hlt.
  - apply leb_refl. exact Hf.
Qed.

(** X14. The exploration rate never falls below its floor: in a training
    run that starts with [epsilon >= floor], the [epsilon] after any
    number of decays is at least [floor], whatever [epsilon**2]
    evaluates to, NaN included; a run of [nepisodes] episodes ends
    with [epsilon] decayed [nepisodes] times. *)
Theorem epsilon_never_below_floor (floor : float64) (fuel nepisodes : nat)
    (epsilon epsilon' : float64) (w : t G * E) :
  F64.leb floor epsilon = true ->
  (forall k : nat,
     F64.leb floor (Nat.iter k (decay square floor) epsilon) = true) /\
  ((train_loop square floor fuel nepisodes epsilon w).1 = Finished epsilon' ->
   epsilon' = Nat.iter nepisodes (decay square floor) epsilon).
Proof.
  intros Hle. pose proof (leb_not_nan _ _ Hle) as [Hf _]. split.
  - intros [|k]; [exact Hle|]. cbn [Nat.iter].
    apply py_max_floor. exact Hf.
  - clear Hle. revert epsilon w.
    induction nepisodes as [|k IH]; intros epsilon w; cbn [train_loop].
    + intros [= <-]. reflexivity.
    + destruct (train_episode fuel epsilon w) as [[s1|x|] w1]; cbn [fst];
        [|discriminate|discriminate].
      intros Hrun. rewrite (IH _ _ Hrun). cbn [Nat.iter]. apply Nat.iter_swap.
Qed.

End TrainExtras.

(** ** The further properties on the example agents *)
Section ExtraWitnesses.
Import Np QLearningAgent Examples Ex.

(** A state below [-n]: [update_qtable(-6, 0, 2, -1)] on five rows
    raises [IndexError]; the state [2^63] raises [OverflowError]. *)
Lemma update_qtable_raises_iff_out_of_range_witness :
  has_shape (qtable agent1) 5 4 /\
  (update_qtable (-6) 0 2 minus_one agent1).1 = Raise IndexError /\
  (update_qtable (-6) 0 2 minus_one agent1).2 = agent1 /\
  (update_qtable (2 ^ 63) 0 2 minus_one agent1).1 = Raise OverflowError.
Proof.
  split; [exact agent1_shape|].
  destruct (update_qtable_raises_iff_out_of_range agent1 5 4 (-6) 0 2 minus_one
              agent1_shape) as (Hiff & Hsame & Hidx & _).
  destruct (update_qtable_raises_iff_out_of_range agent1 5 4 (2 ^ 63) 0 2
              minus_one agent1_shape) as (_ & _ & _ & Hover).
  assert ((update_qtable (-6) 0 2 minus_one agent1).1 <> Ok tt) as Hne.
  { intros Hok. apply Hiff in Hok. lia. }
  split; [apply Hidx; [lia|lia|lia|exact Hne]|].
  split; [exact (Hsame Hne)|].
  apply Hover; lia.
Defined.

(** State [-4] is state 1 and action [-2] is action 2. *)
Lemma negative_indices_wrap_witness :
  update_qtable (1 - Z.of_nat 5) (0 - Z.of_nat 5) (2 - Z.of_nat 4)
      minus_one agent1 =
    update_qtable 1 0 2 minus_one agent1 /\
  get_action (1 - Z.of_nat 5) f0_99 agent1 = get_action 1 f0_99 agent1.
Proof.
  apply (negative_indices_wrap agent1 5 4 1 0 2 minus_one f0_99);
    [exact agent1_shape|lia|lia|lia].
Defined.

(** The draw of [agent1] is 0, below [epsilon = 0.99]: state 99 and an
    empty table give the action of state 1. *)
Lemma exploring_ignores_state_and_table_witness :
  F64.ltb (rng_uniform (rng agent1)).1 f0_99 = true /\
  (get_action 1 f0_99 agent1).1 =
    (get_action 99 f0_99 (set_qtable [] agent1)).1 /\
  rng (get_action 1 f0_99 agent1).2 =
    rng (get_action 99 f0_99 (set_qtable [] agent1)).2.
Proof.
  split; [reflexivity|].
  apply (exploring_ignores_state_and_table agent1 1 99 f0_99 []). reflexivity.
Defined.

(** State 7 of five raises [IndexError], state [2^63] raises
    [OverflowError], and state 0 gives a column below 4. *)
Lemma greedy_action_errors_witness :
  has_shape (qtable agent1) 5 4 /\
  (get_action 7 F64.zero agent1).1 = Raise IndexError /\
  (get_action (2 ^ 63) F64.zero agent1).1 = Raise OverflowError /\
  exists k, (k < 4)%nat /\ (get_action 0 F64.zero agent1).1 = Ok (Z.of_nat k).
Proof.
  split; [exact agent1_shape|].
  destruct (greedy_action_errors agent1 5 4 7 agent1_shape) as (Hidx & _).
  destruct (greedy_action_errors agent1 5 4 (2 ^ 63) agent1_shape)
    as (_ & Hover & _).
  destruct (greedy_action_errors agent1 5 4 0 agent1_shape)
    as (_ & _ & _ & Hok).
  split; [apply Hidx; lia|]. split; [apply Hover; lia|].
  apply Hok; lia.
Defined.

(** In state 0 of [agent1] the greedy action is 3 and [np.max] is
    [Q(0,3) = 5]. *)
Lemma bootstrap_is_greedy_value_witness :
  (get_action 0 F64.zero agent1).1 = Ok 3 /\
  get2 (qtable agent1) 0 3 = Ok (F64.of_Z 5) /\
  exists (k : nat) (row : ndarray1) (mx v : float64),
    (get_action 0 F64.zero agent1).1 = Ok (Z.of_nat k) /\
    get_row (qtable agent1) 0 = Ok row /\ Np.max row = Ok mx /\
    get2 (qtable agent1) 0 (Z.of_nat k) = Ok v /\
    (no_nan row -> F64.eqb v mx = true) /\
    (~ no_nan row -> F64.is_nan v = true /\ F64.is_nan mx = true).
Proof.
  split; [vm_compute; reflexivity|]. split; [vm_compute; reflexivity|].
  apply (bootstrap_is_greedy_value agent1 5 4 0); [exact agent1_shape|lia|lia].
Defined.

Lemma fresh_agent_greedy_is_zero_witness :
  (get_action 3 F64.zero agent0).1 = Ok 0.
Proof.
  apply (fresh_agent_greedy_is_zero 5 (arange 4) f0_5 f0_99 (Some 5) 0 agent0 3);
    [reflexivity|discriminate|lia].
Defined.

(** The first update of the notebook's agent with reward -1 writes
    [0 + 0.5 * -1]. *)
Lemma first_update_writes_rate_times_reward_witness :
  (update_qtable 1 2 3 (S754_finite true 4503599627370496 (-52)) agent0).1 = Ok tt /\
  cell (qtable (update_qtable 1 2 3 (S754_finite true 4503599627370496 (-52))
                  agent0).2) (Z.to_nat 1) (Z.to_nat 3) =
    Some (F64.add F64.zero
            (F64.mul f0_5 (S754_finite true 4503599627370496 (-52)))).
Proof.
  apply (first_update_writes_rate_times_reward 5 (arange 4) f0_5 f0_99 (Some 5) 0
           agent0 1 2 3 true 4503599627370496 (-52));
    [reflexivity|lia|lia|change (length (arange 4)) with 4%nat; lia|reflexivity].
Defined.

Lemma empty_action_set_never_acts_witness :
  __init__ 5 [] f0_5 f0_99 (Some 5) 0 =
    Ok {| actions := []; qtable := replicate 5 [];
          learning_rate := f0_5; discount_factor := f0_99;
          rng := (5 : Z) |} /\
  is_ok (get_action 1 f0_99
           (do_calls history
              {| actions := []; qtable := replicate 5 [];
                 learning_rate := f0_5; discount_factor := f0_99;
                 rng := 5 |})).1 = false /\
  (update_qtable 1 2 0 minus_one
     (do_calls history
        {| actions := []; qtable := replicate 5 [];
           learning_rate := f0_5; discount_factor := f0_99;
           rng := 5 |})).1 = Raise IndexError /\
  qtable (do_calls history
            {| actions := []; qtable := replicate 5 [];
               learning_rate := f0_5; discount_factor := f0_99;
               rng := 5 |}) =
    qtable {| actions := []; qtable := replicate 5 [];
              learning_rate := f0_5; discount_factor := f0_99;
              rng := (5 : Z) |}.
Proof.
  split; [reflexivity|].
  destruct (empty_action_set_never_acts 5 f0_5 f0_99 (Some 5) 0 _ history
              1 1 2 0 f0_99 minus_one eq_refl) as (Hget & _ & Hidx & Hq).
  split; [exact Hget|]. split; [apply Hidx; lia|]. exact Hq.
Defined.

(** The first episode of the random search in the office: down, then
    right into the construction area, for a reward of -11. *)
Lemma random_episode_records_each_step_witness :
  random_episode 50 (random_agent, office_env) =
    (Finished (F64.of_Z (-11), [1; 3]),
     (random_episode 50 (random_agent, office_env)).2) /\
  exists (k : nat) (l1 : float64 * list Z) (w1 : RandomAgent.t Z * GridEnv.t Z),
    iterates random_body k (F64.zero, [])
      ((random_agent, office_env).1,
       (env_reset None (random_agent, office_env).2).2) l1 w1 /\
    random_body l1 w1 =
      (Ok ((F64.of_Z (-11), [1; 3]), true),
       (random_episode 50 (random_agent, office_env)).2) /\
    length [1; 3] = S k /\ (S k <= 50)%nat /\
    Forall (fun a => a ∈ RandomAgent.actions (random_agent, office_env).1)
      [1; 3] /\
    RandomAgent.actions (random_episode 50 (random_agent, office_env)).2.1 =
      RandomAgent.actions (random_agent, office_env).1.
Proof.
  assert (random_episode 50 (random_agent, office_env) =
            (Finished (F64.of_Z (-11), [1; 3]),
             (random_episode 50 (random_agent, office_env)).2)) as Hrun.
  { vm_compute. reflexivity. }
  split; [exact Hrun|].
  exact (random_episode_records_each_step 50 (F64.of_Z (-11)) [1; 3]
           (random_agent, office_env) _ Hrun).
Defined.

Lemma training_keeps_agent_frame_witness :
  has_shape
    (qtable (train_loop (fun x => F64.mul x x) (F64.lit 2 10) 200 100 f0_99
               (agent0, office_env)).2.1) 5 4 /\
  actions (train_loop (fun x => F64.mul x x) (F64.lit 2 10) 200 100 f0_99
             (agent0, office_env)).2.1 = actions (agent0, office_env).1 /\
  learning_rate (train_loop (fun x => F64.mul x x) (F64.lit 2 10) 200 100 f0_99
                   (agent0, office_env)).2.1 =
    learning_rate (agent0, office_env).1 /\
  discount_factor (train_loop (fun x => F64.mul x x) (F64.lit 2 10) 200 100 f0_99
                     (agent0, office_env)).2.1 =
    discount_factor (agent0, office_env).1.
Proof.
  apply (training_keeps_agent_frame (fun x => F64.mul x x) (F64.lit 2 10) 200 100
           f0_99 (agent0, office_env) 5 4).
  split; [reflexivity|]. repeat constructor.
Defined.

(** State 7 does not exist: [get_action] raises and nothing else
    happens. *)
Lemma failed_iteration_keeps_table_witness :
  is_ok (train_body F64.zero 7 (agent1, office_env)).1 = false /\
  qtable (train_body F64.zero 7 (agent1, office_env)).2.1 = qtable agent1 /\
  (is_ok (get_action 7 F64.zero agent1).1 = false ->
   (train_body F64.zero 7 (agent1, office_env)).2.2 = office_env).
Proof.
  assert (is_ok (train_body F64.zero 7 (agent1, office_env)).1 = false) as Hraise.
  { vm_compute. reflexivity. }
  split; [exact Hraise|].
  exact (failed_iteration_keeps_table F64.zero 7 agent1 office_env Hraise).
Defined.

(** The easy mode: floor 0.2 and [epsilon = 0.99]. *)
Lemma epsilon_never_below_floor_witness :
  F64.leb (F64.lit 2 10) f0_99 = true /\
  (forall k : nat,
     F64.leb (F64.lit 2 10)
       (Nat.iter k (decay (fun x => F64.mul x x) (F64.lit 2 10)) f0_99) = true) /\
  ((train_loop (fun x => F64.mul x x) (F64.lit 2 10) 200 12 f0_99
      (agent0, office_env)).1 = Finished (F64.lit 2 10) ->
   F64.lit 2 10 =
     Nat.iter 12 (decay (fun x => F64.mul x x) (F64.lit 2 10)) f0_99).
Proof.
  assert (F64.leb (F64.lit 2 10) f0_99 = true) as Hle by (vm_compute; reflexivity).
  split; [exact Hle|].
  exact (epsilon_never_below_floor (fun x => F64.mul x x) (F64.lit 2 10) 200 12
           f0_99 (F64.lit 2 10) (agent0, office_env) Hle).
Defined.

(** The run of twelve episodes in the office ends with [epsilon] at
    its floor. *)
Example twelve_episodes_reach_the_floor :
  (train_loop (fun x => F64.mul x x) (F64.lit 2 10) 200 12 f0_99
     (agent0, office_env)).1 = Finished (F64.lit 2 10).
Proof. vm_compute. reflexivity. Qed.

End ExtraWitnesses.

(** ** The greedy policy *)
Section PolicyExtras.
Context `{Generator G}.
Import Np QLearningAgent.

Lemma get_action_zero_greedy (ag : t G) (state : Z) :
  (get_action state F64.zero ag).1 = greedy (qtable ag) state.
Proof.
  rewrite get_action_unfold.
  pose proof (uniform_not_below_zero (rng ag)) as H0.
  destruct (rng_uniform (rng ag)) as [u g1]. cbn [fst] in H0. rewrite H0.
  reflexivity.
Qed.

(** X15. Learning in one state leaves the greedy action of every other
    state as it was: after [update_qtable(s, s', a, r)] an exploiting
    call in a state [t <> s] returns what it returned before. *)
Theorem update_keeps_other_states_policy (ag : t G) (n m : nat)
    (s s' a t0 : Z) (r : float64) :
  has_shape (qtable ag) n m ->
  0 <= s < Z.of_nat n -> 0 <= t0 < Z.of_nat n -> t0 <> s ->
  (get_action t0 F64.zero (update_qtable s s' a r ag).2).1 =
    (get_action t0 F64.zero ag).1.
Proof.
  intros Hs Hi Ht Hne. rewrite !get_action_zero_greedy.
  pose proof (update_qtable_shape s s' a r ag n m Hs) as Hs2.
  rewrite update_qtable_unfold in *.
  destruct (res_bind (get2 (qtable ag) s a) _) as [q'|e] eqn:Hupd;
    cbn [snd qtable set_qtable] in *; [|reflexivity].
  destruct (get2 (qtable ag) s a) as [old|]; cbn [res_bind] in Hupd;
    [|discriminate].
  destruct (get_row (qtable ag) s') as [row'|]; cbn [res_bind] in Hupd;
    [|discriminate].
  destruct (Np.max row') as [mx|]; cbn [res_bind] in Hupd; [|discriminate].
  apply set2_inv in Hupd as (r0 & c0 & row & Hr0 & Hrow & _ & ->).
  destruct Hs as [Hlen _]. rewrite Hlen in Hr0.
  rewrite (norm_index_nonneg n s Hi) in Hr0. injection Hr0 as <-.
  unfold greedy, get_row. rewrite length_insert, Hlen.
  rewrite (norm_index_nonneg n t0 Ht). cbn [res_bind].
  rewrite list_lookup_insert_ne by lia. reflexivity.
Qed.

(** X16. The exploiting branch returns a column index, not an entry of the
    action array: when no entry of [actions] lies in
    [[0, len(actions))], an exploiting call in a valid state returns a
    value that is not one of the agent's actions. *)
Theorem exploit_returns_index_not_action (ag : t G) (n : nat) (state : Z) :
  has_shape (qtable ag) n (length (actions ag)) ->
  0 <= state < Z.of_nat n -> actions ag <> [] ->
  (forall x, x ∈ actions ag -> ~ (0 <= x < Z.of_nat (length (actions ag)))) ->
  exists k : Z,
    (get_action state F64.zero ag).1 = Ok k /\
    0 <= k < Z.of_nat (length (actions ag)) /\ k ∉ actions ag.
Proof.
  intros Hs Hi Hne Hout.
  assert (0 < length (actions ag))%nat as Hm.
  { destruct (actions ag); [congruence|cbn; lia]. }
  destruct (greedy_ok _ _ _ state Hs Hi Hm) as (row & k & _ & _ & _ & Hk & Hg).
  exists (Z.of_nat k). rewrite get_action_zero_greedy.
  split; [exact Hg|]. split; [lia|]. intros Hin. apply (Hout _ Hin). lia.
Qed.

End PolicyExtras.

Section PolicyWitnesses.
Import Np QLearningAgent Examples Ex.

Lemma update_keeps_other_states_policy_witness :
  (get_action 0 F64.zero (update_qtable 1 0 2 minus_one agent1).2).1 =
    (get_action 0 F64.zero agent1).1.
Proof.
  apply (update_keeps_other_states_policy agent1 5 4 1 0 2 0 minus_one);
    [exact agent1_shape|lia|lia|lia].
Defined.

(** With [actions = [10, 20]] an exploiting call returns 0 or 1. *)
Lemma exploit_returns_index_not_action_witness :
  exists k : Z,
    (get_action 0 F64.zero
       {| actions := [10; 20]; qtable := [[F64.zero; F64.one]];
          learning_rate := f0_5; discount_factor := f0_99; rng := (5 : Z) |}).1
      = Ok k /\
    0 <= k < Z.of_nat (length [10; 20]) /\ k ∉ [10; 20].
Proof.
  apply (exploit_returns_index_not_action
           {| actions := [10; 20]; qtable := [[F64.zero; F64.one]];
              learning_rate := f0_5; discount_factor := f0_99; rng := (5 : Z) |}
           1 0).
  - split; [reflexivity|]. repeat constructor.
  - lia.
  - discriminate.
  - intros x Hx. cbn [actions length] in *.
    apply elem_of_cons in Hx as [->|Hx]; [lia|].
    apply elem_of_cons in Hx as [->|Hx]; [lia|].
    apply elem_of_nil in Hx. contradiction.
Defined.

End PolicyWitnesses.
